(** * pyqode.core client socket API: a shallow embedding

    This development embeds [pyqode/core/api/client.py] -- the
    [JsonTcpClient] socket (length-prefixed JSON framing, read handlers,
    error handler) and the [ServerProcess] supervisor (lifecycle flags and
    output draining) -- and states the properties of the IPC design over
    that embedding.

    Conventions.
    - Python [bytes] are lists of [byte]; Python [str] are lists of code
      points; Python [int] are [Z].
    - A handler is a computation in the monad [M S], which threads the
      instance attributes [S], appends to a trace of observable events
      (log records, socket writes, timers, the callback, Qt signals) and may
      raise a Python exception.
    - The functions of Python's standard library that the module calls
      ([json.dumps], [json.loads], [str.encode], [bytes.decode], the native
      byte order of [struct]) are the fields of the class [Runtime].  The
      general theorems hold for every runtime; [ref_runtime] is an
      executable instance used to evaluate the handlers on concrete
      messages.
    - The model describes a live object driven through PyQt: the
      [except TypeError] / [except AttributeError] branches that serve
      PySide's [QByteArray] and the [except AttributeError] /
      [except RuntimeError] branches that guard interpreter tear-down are
      not reachable there and are left out.
    - The methods of [JsonTcpClient] that build and announce a request
      ([_send_request], [_on_connected], [_on_disconnected]) take what they
      draw from outside -- the UUID, the names of the worker, the peer of
      the socket -- as arguments.  [pick_free_port] only asks the operating
      system for a port and is not embedded.
    - The two helper functions of [pcef/__init__.py] that open and save a
      file are embedded over a map from file names to file contents. *)

From stdpp Require Import gmap list strings.
From Stdlib Require Import ZArith Lia.
From Stdlib Require Import Strings.Byte Numbers.DecimalString.

Set Warnings "-register-all".

Local Open Scope Z_scope.

(** ** Python values *)

Definition bytes := list byte.
Definition pystr := list N.

(** An ASCII literal as a Python [str]. *)
Definition u (s : string) : pystr := Byte.to_N <$> String.list_byte_of_string s.
Arguments u : simpl never.

(** The values [json.loads] can build and [json.dumps] can take (numbers
    restricted to integers).  A [dict] keeps its insertion order. *)
Inductive pyobj :=
| PyNone
| PyBool (b : bool)
| PyInt (z : Z)
| PyStr (s : pystr)
| PyList (l : list pyobj)
| PyDict (d : list (pystr * pyobj)).

Inductive exn :=
| StructError
| UnicodeEncodeError
| UnicodeDecodeError
| ValueError
| KeyError (key : pyobj)
| TypeError.

Fixpoint dict_get (d : list (pystr * pyobj)) (k : pystr) : option pyobj :=
  match d with
  | [] => None
  | (k', v) :: d' => if decide (k' = k) then Some v else dict_get d' k
  end.

(** [obj[key]] for a [str] key: only a [dict] can be indexed that way. *)
Definition getitem (obj : pyobj) (key : pystr) : exn + pyobj :=
  match obj with
  | PyDict d =>
      match dict_get d key with
      | Some v => inr v
      | None => inl (KeyError (PyStr key))
      end
  | _ => inl TypeError
  end.

(** ** Observable events *)

Inductive level := DEBUG | INFO | ERROR.

#[global] Instance level_eq_dec : EqDecision level.
Proof. solve_decision. Defined.

Inductive logarg :=
| AInt (z : Z)
| AStr (s : pystr)
| AText (s : string)
| AObj (o : pyobj).

Inductive slot := Slot_connect.

Inductive event :=
| Log (logger : string) (lvl : level) (fmt : string) (args : list logarg)
| SrvLog (lvl : level) (line : pystr)
| Write (data : bytes)
| ConnectToHost (host : string) (port : Z)
| SingleShot (msec : Z) (target : slot)
| Callback (cb : nat) (status results : pyobj)
| Finished
| ProcessTerminate.

Definition trace := list event.

(** The events a caller of the socket can observe: the callback and the
    [finished] signal. *)
Definition is_signal (e : event) : bool :=
  match e with
  | Callback _ _ _ | Finished => true
  | _ => false
  end.

Definition signals (tr : trace) : trace := filter (λ e, is_signal e = true) tr.

(** ** The handler monad: attributes, trace, exceptions *)

Inductive result (S A : Type) : Type :=
| Ok (a : A) (s : S) (tr : trace)
| Raised (e : exn) (s : S) (tr : trace).
Arguments Ok {S A} a s tr.
Arguments Raised {S A} e s tr.

Definition M (S A : Type) : Type := S → result S A.

#[global] Instance M_ret {S} : MRet (M S) := λ A a s, Ok a s [].

#[global] Instance M_bind {S} : MBind (M S) := λ A B k m s,
  match m s with
  | Ok a s1 t1 =>
      match k a s1 with
      | Ok b s2 t2 => Ok b s2 (t1 ++ t2)
      | Raised e s2 t2 => Raised e s2 (t1 ++ t2)
      end
  | Raised e s1 t1 => Raised e s1 t1
  end.

Definition get {S} : M S S := λ s, Ok s s [].
Definition modify {S} (f : S → S) : M S unit := λ s, Ok () (f s) [].
Definition emit {S} (e : event) : M S unit := λ s, Ok () s [e].
Definition raise {S A} (e : exn) : M S A := λ s, Raised e s [].

Definition lift_opt {S A} (e : exn) (o : option A) : M S A :=
  match o with Some a => mret a | None => raise e end.

Definition lift_sum {S A} (r : exn + A) : M S A :=
  match r with inr a => mret a | inl e => raise e end.

Definition state_of {S A} (r : result S A) : S :=
  match r with Ok _ s _ | Raised _ s _ => s end.

Definition trace_of {S A} (r : result S A) : trace :=
  match r with Ok _ _ tr | Raised _ _ tr => tr end.


(** The module logger, [logging.getLogger(__name__)]. *)
Definition _logger : string := "pyqode.core.api.client".

Definition debug {S} (fmt : string) (args : list logarg) : M S unit :=
  emit (Log _logger DEBUG fmt args).

Definition info {S} (fmt : string) (args : list logarg) : M S unit :=
  emit (Log _logger INFO fmt args).

(** ** The runtime: what the module takes from Python's library *)

Inductive endianness := LittleEndian | BigEndian.

Class Runtime := {
  (** [sys.byteorder], which the [=] of a [struct] format follows *)
  byteorder : endianness;
  json_dumps : pyobj → pystr;
  (** [None] stands for the [ValueError] of [json.loads] *)
  json_loads : pystr → option pyobj;
  (** [str.encode('utf-8')], [None] for [UnicodeEncodeError] *)
  str_encode : pystr → option bytes;
  (** [bytes.decode('utf-8')], [None] for [UnicodeDecodeError] *)
  bytes_decode : bytes → option pystr
}.

(** ** [struct.pack('=I', n)] and [struct.unpack('=I', b)] *)

Definition byte_of_Z (z : Z) : byte :=
  default "000"%byte (Byte.of_N (Z.to_N (Z.land z 255))).

Definition Z_of_byte (b : byte) : Z := Z.of_N (Byte.to_N b).

(** Least significant byte first. *)
Definition le_bytes (n : Z) : bytes :=
  [byte_of_Z n; byte_of_Z (Z.shiftr n 8);
   byte_of_Z (Z.shiftr n 16); byte_of_Z (Z.shiftr n 24)].

Definition le_value (b0 b1 b2 b3 : byte) : Z :=
  Z.lor (Z_of_byte b0)
    (Z.lor (Z.shiftl (Z_of_byte b1) 8)
       (Z.lor (Z.shiftl (Z_of_byte b2) 16) (Z.shiftl (Z_of_byte b3) 24))).

Definition struct_pack_I (order : endianness) (n : Z) : exn + bytes :=
  if bool_decide (0 ≤ n < 2 ^ 32) then
    inr (match order with
         | LittleEndian => le_bytes n
         | BigEndian => reverse (le_bytes n)
         end)
  else inl StructError.

Definition struct_unpack_I (order : endianness) (b : bytes) : exn + Z :=
  match b with
  | [b0; b1; b2; b3] =>
      inr (match order with
           | LittleEndian => le_value b0 b1 b2 b3
           | BigEndian => le_value b3 b2 b1 b0
           end)
  | _ => inl StructError
  end.

(** ** Module constants *)

Definition SOCKET_ERROR_STRINGS : gmap Z string :=
  list_to_map
    [(0, "the connection was refused by the peer (or timed out).");
     (1, "the remote host closed the connection.");
     (2, "the host address was not found.");
     (3, "the socket operation failed because the application lacked the required privileges.");
     (4, "the local system ran out of resources (e.g., too many sockets).");
     (5, "the socket operation timed out.");
     (6, "the datagram was larger than the operating system's limit (which can be as low as 8192 bytes).");
     (7, "an error occurred with the network (e.g., the network cable was accidentally plugged out).");
     (-1, "an unidentified error occurred.")].

Definition PROCESS_ERROR_STRING : gmap Z string :=
  list_to_map
    [(0, "the process failed to start. Either the invoked program is missing, or you may have insufficient permissions to invoke the program.");
     (1, "the process crashed some time after starting successfully.");
     (2, "the last waitFor...() function timed out. The state of QProcess is unchanged, and you can try calling waitFor...() again.");
     (4, "an error occurred when attempting to write to the process. For example, the process may not be running, or it may have closed its input channel.");
     (3, "an error occurred when attempting to read from the process. For example, the process may not be running.");
     (5, "an unknown error occurred. This is the default return value of error().")].

(** [key in table] *)
Definition contains (table : gmap Z string) (key : Z) : bool :=
  bool_decide (is_Some (table !! key)).

(** [table[key]] *)
Definition table_getitem (table : gmap Z string) (key : Z) : exn + string :=
  match table !! key with
  | Some msg => inr msg
  | None => inl (KeyError (PyInt key))
  end.

(** ** class JsonTcpClient(QtNetwork.QTcpSocket) *)

(** The instance attributes set by [__init__], and [rx], the bytes the
    socket has received and the handlers have not read yet (what
    [bytesAvailable()] counts and [read()] takes from). *)
Record JsonTcpClient := {
  _port : Z;
  _header_complete : bool;
  _header_buf : bytes;
  _to_read : Z;
  _data_buf : bytes;
  _callback : option nat;
  is_connected : bool;
  rx : bytes
}.

Definition set_header_complete (v : bool) (s : JsonTcpClient) : JsonTcpClient :=
  {| _port := _port s; _header_complete := v; _header_buf := _header_buf s;
     _to_read := _to_read s; _data_buf := _data_buf s;
     _callback := _callback s; is_connected := is_connected s; rx := rx s |}.

Definition set_header_buf (v : bytes) (s : JsonTcpClient) : JsonTcpClient :=
  {| _port := _port s; _header_complete := _header_complete s; _header_buf := v;
     _to_read := _to_read s; _data_buf := _data_buf s;
     _callback := _callback s; is_connected := is_connected s; rx := rx s |}.

Definition set_to_read (v : Z) (s : JsonTcpClient) : JsonTcpClient :=
  {| _port := _port s; _header_complete := _header_complete s;
     _header_buf := _header_buf s; _to_read := v; _data_buf := _data_buf s;
     _callback := _callback s; is_connected := is_connected s; rx := rx s |}.

Definition set_data_buf (v : bytes) (s : JsonTcpClient) : JsonTcpClient :=
  {| _port := _port s; _header_complete := _header_complete s;
     _header_buf := _header_buf s; _to_read := _to_read s; _data_buf := v;
     _callback := _callback s; is_connected := is_connected s; rx := rx s |}.

Definition set_rx (v : bytes) (s : JsonTcpClient) : JsonTcpClient :=
  {| _port := _port s; _header_complete := _header_complete s;
     _header_buf := _header_buf s; _to_read := _to_read s;
     _data_buf := _data_buf s; _callback := _callback s;
     is_connected := is_connected s; rx := v |}.

(** The attributes right after [__init__(parent, port, ..., on_receive)]. *)
Definition init (port : Z) (on_receive : option nat) : JsonTcpClient :=
  {| _port := port; _header_complete := false; _header_buf := [];
     _to_read := 0; _data_buf := []; _callback := on_receive;
     is_connected := false; rx := [] |}.

(** [QIODevice.bytesAvailable()] *)
Definition bytesAvailable (s : JsonTcpClient) : Z := Z.of_nat (length (rx s)).

(** [QIODevice.read(maxlen)]: at most [maxlen] of the available bytes. *)
Definition read (maxlen : Z) : M JsonTcpClient bytes := λ s,
  Ok (take (Z.to_nat maxlen) (rx s)) (set_rx (drop (Z.to_nat maxlen) (rx s)) s) [].

Definition _connect : M JsonTcpClient unit :=
  s ← get;
  debug "connecting to 127.0.0.1:%d" [AInt (_port s)] ;;
  emit (ConnectToHost "127.0.0.1" (_port s)).

(** What the event loop runs when a [QTimer.singleShot] fires. *)
Definition fire (target : slot) : M JsonTcpClient unit :=
  match target with Slot_connect => _connect end.

Definition _on_error (error : Z) : M JsonTcpClient unit :=
  let error := if negb (contains SOCKET_ERROR_STRINGS error) then -1 else error in
  msg ← lift_sum (table_getitem SOCKET_ERROR_STRINGS error);
  debug msg [] ;;
  if bool_decide (error = 0) then emit (SingleShot 100 Slot_connect)
  else mret ().

Section Client.
Context `{!Runtime}.

Definition send (obj : pyobj) : M JsonTcpClient unit :=
  debug "sending request: %r" [AObj obj] ;;
  let msg := json_dumps obj in
  msg ← lift_opt UnicodeEncodeError (str_encode msg);
  header ← lift_sum (struct_pack_I byteorder (Z.of_nat (length msg)));
  emit (Write header) ;;
  emit (Write msg).

Definition _read_header : M JsonTcpClient unit :=
  debug "reading header" [] ;;
  chunk ← read 4;
  modify (λ s, set_header_buf (_header_buf s ++ chunk) s) ;;
  s ← get;
  if bool_decide (length (_header_buf s) = 4%nat) then
    modify (set_header_complete true) ;;
    header ← lift_sum (struct_unpack_I byteorder (_header_buf s));
    modify (set_to_read header) ;;
    modify (set_header_buf []) ;;
    debug "header content: %d" [AInt header]
  else mret ().

Definition _read_payload : M JsonTcpClient unit :=
  debug "reading payload data" [] ;;
  s ← get;
  debug "remaining bytes to read: %d" [AInt (_to_read s)] ;;
  data_read ← read (_to_read s);
  let nb_bytes_read := Z.of_nat (length data_read) in
  debug "%d bytes read" [AInt nb_bytes_read] ;;
  modify (λ s, set_data_buf (_data_buf s ++ data_read) s) ;;
  modify (λ s, set_to_read (_to_read s - nb_bytes_read) s) ;;
  s ← get;
  if bool_decide (_to_read s ≤ 0) then
    data ← lift_opt UnicodeDecodeError (bytes_decode (_data_buf s));
    debug "payload read: %r" [AStr data] ;;
    debug "payload length: %r" [AInt (Z.of_nat (length (_data_buf s)))] ;;
    debug "decoding payload as json object" [] ;;
    obj ← lift_opt ValueError (json_loads data);
    debug "response received: %r" [AObj obj] ;;
    results ← lift_sum (getitem obj (u "results"));
    status ← lift_sum (getitem obj (u "status"));
    match _callback s with
    | Some cb => emit (Callback cb status results)
    | None => mret ()
    end ;;
    modify (set_header_complete false) ;;
    modify (set_data_buf []) ;;
    emit Finished
  else mret ().

(** One pass through the body of the [while] of [_on_ready_read]. *)
Definition ready_read_body : M JsonTcpClient unit :=
  s ← get;
  if negb (_header_complete s) then _read_header else _read_payload.

(** [_on_ready_read], with a bound on the number of passes through the
    loop; [None] when the bound is reached before the loop ends. *)
Fixpoint _on_ready_read (fuel : nat) (s : JsonTcpClient)
  : option (result JsonTcpClient unit) :=
  match fuel with
  | O => None
  | S fuel' =>
      if bool_decide (bytesAvailable s = 0) then Some (Ok () s [])
      else
        match ready_read_body s with
        | Ok _ s1 t1 =>
            match _on_ready_read fuel' s1 with
            | Some (Ok _ s2 t2) => Some (Ok () s2 (t1 ++ t2))
            | Some (Raised e s2 t2) => Some (Raised e s2 (t1 ++ t2))
            | None => None
            end
        | Raised e s1 t1 => Some (Raised e s1 t1)
        end
  end.

(** Enough passes for any content of the receive buffer. *)
Definition passes (s : JsonTcpClient) : nat := 2 * length (rx s) + 2.

(** The socket receives [chunk] and emits [readyRead]. *)
Definition readyRead (chunk : bytes) (s : JsonTcpClient)
  : option (result JsonTcpClient unit) :=
  let s := set_rx (rx s ++ chunk) s in
  _on_ready_read (passes s) s.

(** The chunks of a stream arrive one [readyRead] after the other; an
    exception ends the handler it is raised in, and the trace keeps what
    was observed before. *)
Fixpoint receive (chunks : list bytes) (s : JsonTcpClient)
  : option (result JsonTcpClient unit) :=
  match chunks with
  | [] => Some (Ok () s [])
  | chunk :: chunks' =>
      match readyRead chunk s with
      | Some (Ok _ s1 t1) =>
          match receive chunks' s1 with
          | Some (Ok _ s2 t2) => Some (Ok () s2 (t1 ++ t2))
          | Some (Raised e s2 t2) => Some (Raised e s2 (t1 ++ t2))
          | None => None
          end
      | other => other
      end
  end.

(** The byte stream a computation wrote to the socket. *)
Fixpoint written (tr : trace) : bytes :=
  match tr with
  | [] => []
  | Write data :: tr' => data ++ written tr'
  | _ :: tr' => written tr'
  end.
End Client.

(** Several sockets live in one event loop, one per request in flight; a
    [readyRead] goes to the socket the bytes arrived on, and the events it
    causes are tagged with that socket's index. *)
Section EventLoop.
Context `{!Runtime}.

Definition deliver (i : nat) (chunk : bytes) (socks : list JsonTcpClient)
  : option (list JsonTcpClient * list (nat * event)) :=
  s ← socks !! i;
  r ← readyRead chunk s;
  Some (<[i := state_of r]> socks, (λ e, (i, e)) <$> trace_of r).

Fixpoint deliveries (ds : list (nat * bytes)) (socks : list JsonTcpClient)
  : option (list JsonTcpClient * list (nat * event)) :=
  match ds with
  | [] => Some (socks, [])
  | (i, chunk) :: ds' =>
      '(socks1, t1) ← deliver i chunk socks;
      '(socks2, t2) ← deliveries ds' socks1;
      Some (socks2, t1 ++ t2)
  end.

(** The signals of socket [i] in a tagged trace. *)
Definition signals_of (i : nat) (tr : list (nat * event)) : trace :=
  signals (snd <$> filter (λ p, p.1 = i) tr).
End EventLoop.

(** ** Python [str] methods used by the supervisor *)

(** [s.rfind(c)] for a one-character [c]: the highest index, or [-1]. *)
Fixpoint rfind_from (s : pystr) (c : N) (i last : Z) : Z :=
  match s with
  | [] => last
  | x :: s' => rfind_from s' c (i + 1) (if decide (x = c) then i else last)
  end.

Definition rfind (s : pystr) (c : N) : Z := rfind_from s c 0 (-1).

(** [s[:stop]]: a negative [stop] counts from the end. *)
Definition slice_to (s : pystr) (stop : Z) : pystr :=
  let stop :=
    if bool_decide (stop < 0) then Z.max 0 (stop + Z.of_nat (length s))
    else stop in
  take (Z.to_nat stop) s.

(** The line boundaries of [str.splitlines]: LF, VT, FF, CR, FS, GS, RS,
    NEL, LS and PS. *)
Definition is_linebreak (c : N) : bool :=
  bool_decide (c ∈ [10; 11; 12; 13; 28; 29; 30; 133; 8232; 8233]%N).

(** [s.splitlines()]: CR LF is one boundary, and a boundary at the very end
    opens no further line. *)
Fixpoint splitlines_from (s cur : pystr) : list pystr :=
  match s with
  | [] => match cur with [] => [] | _ => [cur] end
  | c :: s' =>
      if is_linebreak c then
        match s' with
        | c' :: s'' =>
            if bool_decide (c = 13%N ∧ c' = 10%N)
            then cur :: splitlines_from s'' []
            else cur :: splitlines_from s' []
        | [] => [cur]
        end
      else splitlines_from s' (cur ++ [c])
  end.

Definition splitlines (s : pystr) : list pystr := splitlines_from s [].

(** ** class ServerProcess(QtCore.QProcess) *)

(** The instance attributes, and the output the process wrote to its two
    pipes and the supervisor has not read yet. *)
Record ServerProcess := {
  running : bool;
  starting : bool;
  _test_not_deleted : bool;
  stdout_pending : bytes;
  stderr_pending : bytes
}.

Definition set_running (v : bool) (p : ServerProcess) : ServerProcess :=
  {| running := v; starting := starting p;
     _test_not_deleted := _test_not_deleted p;
     stdout_pending := stdout_pending p; stderr_pending := stderr_pending p |}.

Definition set_starting (v : bool) (p : ServerProcess) : ServerProcess :=
  {| running := running p; starting := v;
     _test_not_deleted := _test_not_deleted p;
     stdout_pending := stdout_pending p; stderr_pending := stderr_pending p |}.

Definition set_stdout_pending (v : bytes) (p : ServerProcess) : ServerProcess :=
  {| running := running p; starting := starting p;
     _test_not_deleted := _test_not_deleted p;
     stdout_pending := v; stderr_pending := stderr_pending p |}.

Definition set_stderr_pending (v : bytes) (p : ServerProcess) : ServerProcess :=
  {| running := running p; starting := starting p;
     _test_not_deleted := _test_not_deleted p;
     stdout_pending := stdout_pending p; stderr_pending := v |}.

(** The attributes right after [ServerProcess.__init__(parent)]. *)
Definition init_process : ServerProcess :=
  {| running := false; starting := true; _test_not_deleted := false;
     stdout_pending := []; stderr_pending := [] |}.

(** [QProcess.readAllStandardOutput()] and [readAllStandardError()] *)
Definition readAllStandardOutput : M ServerProcess bytes := λ p,
  Ok (stdout_pending p) (set_stdout_pending [] p) [].

Definition readAllStandardError : M ServerProcess bytes := λ p,
  Ok (stderr_pending p) (set_stderr_pending [] p) [].

(** [for line in lines: self._srv_logger.<lvl>(line)] *)
Fixpoint log_lines (lvl : level) (lines : list pystr) : M ServerProcess unit :=
  match lines with
  | [] => mret ()
  | line :: lines' => emit (SrvLog lvl line) ;; log_lines lvl lines'
  end.

Definition _on_process_started : M ServerProcess unit :=
  info "backend process started" [] ;;
  modify (set_starting false) ;;
  modify (set_running true).

Definition _on_process_error (error : Z) : M ServerProcess unit :=
  let error := if negb (contains PROCESS_ERROR_STRING error) then -1 else error in
  p ← get;
  if running p then
    msg ← lift_sum (table_getitem PROCESS_ERROR_STRING error);
    debug msg []
  else mret ().

Definition _on_process_finished (exit_code : Z) : M ServerProcess unit :=
  info "backend process finished with exit code %d" [AInt exit_code] ;;
  modify (set_running false).

Definition terminate : M ServerProcess unit :=
  modify (set_running false) ;;
  emit ProcessTerminate.

Section Supervisor.
Context `{!Runtime}.

Definition _on_process_stdout_ready : M ServerProcess unit :=
  o ← readAllStandardOutput;
  output ← lift_opt UnicodeDecodeError (bytes_decode o);
  let output := slice_to output (rfind output 10%N) in
  log_lines DEBUG (splitlines output).

Definition _on_process_stderr_ready : M ServerProcess unit :=
  o ← readAllStandardError;
  output ← lift_opt UnicodeDecodeError (bytes_decode o);
  let output := slice_to output (rfind output 10%N) in
  log_lines ERROR (splitlines output).

(** The process writes [chunk] to a pipe and the matching signal fires. *)
Definition readyReadStandardOutput (chunk : bytes) : M ServerProcess unit :=
  modify (λ p, set_stdout_pending (stdout_pending p ++ chunk) p) ;;
  _on_process_stdout_ready.

Definition readyReadStandardError (chunk : bytes) : M ServerProcess unit :=
  modify (λ p, set_stderr_pending (stderr_pending p ++ chunk) p) ;;
  _on_process_stderr_ready.
End Supervisor.

(** The lines a trace sent to the backend logger at level [lvl]. *)
Fixpoint logged (lvl : level) (tr : trace) : list pystr :=
  match tr with
  | [] => []
  | SrvLog lvl' line :: tr' =>
      if bool_decide (lvl' = lvl) then line :: logged lvl tr' else logged lvl tr'
  | _ :: tr' => logged lvl tr'
  end.

(** ** A reference runtime

    An executable instance of [Runtime]: UTF-8, and JSON text in the layout
    of [json.dumps] with its default arguments (separators [", "] and
    [": "], [ensure_ascii]) read back by a recursive-descent parser. *)

Local Open Scope N_scope.

Definition byte_of_N (n : N) : byte := default "000"%byte (Byte.of_N n).

(** The UTF-8 bytes of one code point; surrogates have none. *)
Definition utf8_encode_char (c : N) : option bytes :=
  if c <? 128 then Some [byte_of_N c]
  else if c <? 2048 then
    Some [byte_of_N (N.lor 192 (N.shiftr c 6));
          byte_of_N (N.lor 128 (N.land c 63))]
  else if c <? 65536 then
    if (55296 <=? c) && (c <=? 57343) then None
    else
      Some [byte_of_N (N.lor 224 (N.shiftr c 12));
            byte_of_N (N.lor 128 (N.land (N.shiftr c 6) 63));
            byte_of_N (N.lor 128 (N.land c 63))]
  else if c <? 1114112 then
    Some [byte_of_N (N.lor 240 (N.shiftr c 18));
          byte_of_N (N.lor 128 (N.land (N.shiftr c 12) 63));
          byte_of_N (N.lor 128 (N.land (N.shiftr c 6) 63));
          byte_of_N (N.lor 128 (N.land c 63))]
  else None.

Fixpoint utf8_encode (s : pystr) : option bytes :=
  match s with
  | [] => Some []
  | c :: s' =>
      match utf8_encode_char c, utf8_encode s' with
      | Some b, Some bs => Some (b ++ bs)
      | _, _ => None
      end
  end.

(** The payload bits of a continuation byte [10xxxxxx]. *)
Definition continuation (b : byte) : option N :=
  let n := Byte.to_N b in
  if (128 <=? n) && (n <? 192) then Some (N.land n 63) else None.

(** A decoded scalar is kept when it needed that many bytes and is not a
    surrogate. *)
Definition scalar (lo hi c : N) : option N :=
  if (lo <=? c) && (c <=? hi) && negb ((55296 <=? c) && (c <=? 57343))
  then Some c else None.

Fixpoint utf8_decode (b : bytes) : option pystr :=
  match b with
  | [] => Some []
  | b0 :: r0 =>
      let n0 := Byte.to_N b0 in
      if n0 <? 128 then cons n0 <$> utf8_decode r0
      else
        match r0 with
        | [] => None
        | b1 :: r1 =>
            c1 ← continuation b1;
            if (192 <=? n0) && (n0 <? 224) then
              c ← scalar 128 2047 (N.lor (N.shiftl (N.land n0 31) 6) c1);
              cons c <$> utf8_decode r1
            else
              match r1 with
              | [] => None
              | b2 :: r2 =>
                  c2 ← continuation b2;
                  if (224 <=? n0) && (n0 <? 240) then
                    c ← scalar 2048 65535
                          (N.lor (N.shiftl (N.land n0 15) 12)
                             (N.lor (N.shiftl c1 6) c2));
                    cons c <$> utf8_decode r2
                  else
                    match r2 with
                    | [] => None
                    | b3 :: r3 =>
                        c3 ← continuation b3;
                        if (240 <=? n0) && (n0 <? 248) then
                          c ← scalar 65536 1114111
                                (N.lor (N.shiftl (N.land n0 7) 18)
                                   (N.lor (N.shiftl c1 12)
                                      (N.lor (N.shiftl c2 6) c3)));
                          cons c <$> utf8_decode r3
                        else None
                    end
              end
        end
  end.

(** *** Writing JSON *)

Definition hex_digit (n : N) : N := if n <? 10 then 48 + n else 87 + n.

(** [\uXXXX] *)
Definition escape_u (c : N) : pystr :=
  [92; 117; hex_digit (N.land (N.shiftr c 12) 15);
   hex_digit (N.land (N.shiftr c 8) 15);
   hex_digit (N.land (N.shiftr c 4) 15); hex_digit (N.land c 15)].

Definition escape_char (c : N) : pystr :=
  if c =? 34 then [92; 34]
  else if c =? 92 then [92; 92]
  else if c =? 10 then [92; 110]
  else if c =? 13 then [92; 114]
  else if c =? 9 then [92; 116]
  else if c =? 12 then [92; 102]
  else if c =? 8 then [92; 98]
  else if (32 <=? c) && (c <=? 126) then [c]
  else if c <? 65536 then escape_u c
  else
    let v := c - 65536 in
    escape_u (N.lor 55296 (N.shiftr v 10)) ++ escape_u (N.lor 56320 (N.land v 1023)).

Fixpoint escape (s : pystr) : pystr :=
  match s with
  | [] => []
  | c :: s' => escape_char c ++ escape s'
  end.

Definition dumps_str (s : pystr) : pystr := [34] ++ escape s ++ [34].

Fixpoint join (sep : pystr) (parts : list pystr) : pystr :=
  match parts with
  | [] => []
  | [p] => p
  | p :: parts' => p ++ sep ++ join sep parts'
  end.

Fixpoint ref_dumps (o : pyobj) : pystr :=
  match o with
  | PyNone => u "null"
  | PyBool true => u "true"
  | PyBool false => u "false"
  | PyInt z => u (NilZero.string_of_int (Z.to_int z))
  | PyStr s => dumps_str s
  | PyList l => [91] ++ join (u ", ") (List.map ref_dumps l) ++ [93]
  | PyDict d =>
      [123]
      ++ join (u ", ")
           (List.map (λ kv, dumps_str (fst kv) ++ u ": " ++ ref_dumps (snd kv)) d)
      ++ [125]
  end.

(** *** Reading JSON *)

Definition is_ws (c : N) : bool :=
  (c =? 32) || (c =? 9) || (c =? 10) || (c =? 13).

Fixpoint skip_ws (s : pystr) : pystr :=
  match s with
  | c :: s' => if is_ws c then skip_ws s' else s
  | [] => []
  end.

Definition hex_value (c : N) : option N :=
  if (48 <=? c) && (c <=? 57) then Some (c - 48)
  else if (97 <=? c) && (c <=? 102) then Some (c - 87)
  else if (65 <=? c) && (c <=? 70) then Some (c - 55)
  else None.

Definition hex4 (a b c d : N) : option N :=
  a ← hex_value a; b ← hex_value b; c ← hex_value c; d ← hex_value d;
  Some (N.lor (N.shiftl a 12) (N.lor (N.shiftl b 8) (N.lor (N.shiftl c 4) d))).

(** The characters of a string up to its closing quote, escapes resolved,
    and the text after the quote. *)
Fixpoint parse_chars (fuel : nat) (s acc : pystr) : option (pystr * pystr) :=
  match fuel with
  | O => None
  | S fuel' =>
      match s with
      | [] => None
      | 34 :: r => Some (acc, r)
      | 92 :: 117 :: a :: b :: c :: d :: r =>
          hi ← hex4 a b c d;
          match r with
          | 92 :: 117 :: a' :: b' :: c' :: d' :: r' =>
              match hex4 a' b' c' d' with
              | Some lo =>
                  if (55296 <=? hi) && (hi <=? 56319)
                     && (56320 <=? lo) && (lo <=? 57343)
                  then
                    parse_chars fuel' r'
                      (acc ++ [65536 + N.lor (N.shiftl (hi - 55296) 10) (lo - 56320)])
                  else parse_chars fuel' r (acc ++ [hi])
              | None => parse_chars fuel' r (acc ++ [hi])
              end
          | _ => parse_chars fuel' r (acc ++ [hi])
          end
      | 92 :: e :: r =>
          c ← (if e =? 34 then Some 34
               else if e =? 92 then Some 92
               else if e =? 47 then Some 47
               else if e =? 98 then Some 8
               else if e =? 102 then Some 12
               else if e =? 110 then Some 10
               else if e =? 114 then Some 13
               else if e =? 116 then Some 9
               else None);
          parse_chars fuel' r (acc ++ [c])
      | c :: r =>
          if (c <? 32) || (c =? 92) then None
          else parse_chars fuel' r (acc ++ [c])
      end
  end.

Definition parse_string (s : pystr) : option (pystr * pystr) :=
  parse_chars (S (length s)) s [].

Definition is_digit (c : N) : bool := (48 <=? c) && (c <=? 57).

Fixpoint parse_digits (s : pystr) (acc : N) : N * pystr :=
  match s with
  | c :: s' => if is_digit c then parse_digits s' (10 * acc + (c - 48)) else (acc, s)
  | [] => (acc, [])
  end.

(** An integer literal: an optional minus sign, then a lone zero or digits
    that do not start with zero.  A fraction or an exponent would make a
    float, which the model of values has not. *)
Definition parse_int (s : pystr) : option (Z * pystr) :=
  let '(neg, s) := match s with 45 :: r => (true, r) | _ => (false, s) end in
  match s with
  | d :: r =>
      if is_digit d then
        let '(n, rest) := if d =? 48 then (0, r) else parse_digits s 0 in
        match rest with
        | c :: _ =>
            if is_digit c || (c =? 46) || (c =? 101) || (c =? 69) then None
            else Some (if neg then Z.opp (Z.of_N n) else Z.of_N n, rest)
        | [] => Some (if neg then Z.opp (Z.of_N n) else Z.of_N n, rest)
        end
      else None
  | [] => None
  end.

(** [d[k] = v] *)
Fixpoint dict_set (d : list (pystr * pyobj)) (k : pystr) (v : pyobj)
  : list (pystr * pyobj) :=
  match d with
  | [] => [(k, v)]
  | (k', v') :: d' =>
      if decide (k' = k) then (k', v) :: d' else (k', v') :: dict_set d' k v
  end.

Fixpoint parse_value (fuel : nat) (s : pystr) : option (pyobj * pystr) :=
  match fuel with
  | O => None
  | S fuel' =>
      match skip_ws s with
      | 110 :: 117 :: 108 :: 108 :: r => Some (PyNone, r)
      | 116 :: 114 :: 117 :: 101 :: r => Some (PyBool true, r)
      | 102 :: 97 :: 108 :: 115 :: 101 :: r => Some (PyBool false, r)
      | 34 :: r => '(str, r') ← parse_string r; Some (PyStr str, r')
      | 91 :: r =>
          match skip_ws r with
          | 93 :: r' => Some (PyList [], r')
          | _ => '(l, r') ← parse_elements fuel' r []; Some (PyList l, r')
          end
      | 123 :: r =>
          match skip_ws r with
          | 125 :: r' => Some (PyDict [], r')
          | _ => '(d, r') ← parse_members fuel' r []; Some (PyDict d, r')
          end
      | r => '(z, r') ← parse_int r; Some (PyInt z, r')
      end
  end
with parse_elements (fuel : nat) (s : pystr) (acc : list pyobj)
  : option (list pyobj * pystr) :=
  match fuel with
  | O => None
  | S fuel' =>
      '(v, r) ← parse_value fuel' s;
      match skip_ws r with
      | 44 :: r' => parse_elements fuel' r' (acc ++ [v])
      | 93 :: r' => Some (acc ++ [v], r')
      | _ => None
      end
  end
with parse_members (fuel : nat) (s : pystr) (acc : list (pystr * pyobj))
  : option (list (pystr * pyobj) * pystr) :=
  match fuel with
  | O => None
  | S fuel' =>
      match skip_ws s with
      | 34 :: r =>
          '(k, r) ← parse_string r;
          match skip_ws r with
          | 58 :: r =>
              '(v, r) ← parse_value fuel' r;
              match skip_ws r with
              | 44 :: r' => parse_members fuel' r' (dict_set acc k v)
              | 125 :: r' => Some (dict_set acc k v, r')
              | _ => None
              end
          | _ => None
          end
      | _ => None
      end
  end.

Definition ref_loads (s : pystr) : option pyobj :=
  '(v, r) ← parse_value (2 * length s + 2) s;
  match skip_ws r with
  | [] => Some v
  | _ => None
  end.

Local Open Scope Z_scope.

Definition ref_runtime : Runtime :=
  {| byteorder := LittleEndian;
     json_dumps := ref_dumps;
     json_loads := ref_loads;
     str_encode := utf8_encode;
     bytes_decode := utf8_decode |}.

(** ** Concrete messages *)

(** The response of the echo worker of the specification's scenario. *)
Definition echo_response : pyobj :=
  PyDict [(u "status", PyBool true); (u "results", PyStr (u "hi"))].

(** The bytes [send] writes for [obj] under the reference runtime. *)
Definition wire (obj : pyobj) : bytes :=
  written (trace_of (@send ref_runtime obj (init 0 None))).

(** An ASCII literal as Python [bytes]. *)
Definition ascii_bytes (s : string) : bytes := String.list_byte_of_string s.

(** The frame of the echo response, as the backend writes it. *)
Definition echo_frame : bytes := wire echo_response.

(** A second response, for a second request in flight. *)
Definition failure_response : pyobj :=
  PyDict [(u "status", PyBool false); (u "results", PyList [PyInt 3; PyNone])].

(** Two chunks of process output that do not end with a newline: [a],
    newline, [b]; and [abc]. *)
Definition open_line : bytes := ascii_bytes "a" ++ [x0a] ++ ascii_bytes "b".
Definition no_newline : bytes := ascii_bytes "abc".

(** A supervisor whose process has started. *)
Definition running_process : ServerProcess :=
  state_of (_on_process_started init_process).

(** Its payload: the frame without the 4 bytes of the header. *)
Definition echo_payload : bytes := drop 4 echo_frame.

(** A string whose JSON text is exactly [2 ^ 32] bytes long. *)
Definition oversized : pyobj := PyStr (repeat 97%N (Z.to_nat 4294967294)).




(** ** Notions used to state the properties *)

(** The unsigned integer a byte string spells, least significant byte
    first: what the wire format calls the value of the length header. *)
Fixpoint unsigned_le (b : bytes) : Z :=
  match b with
  | [] => 0
  | x :: b' => Z_of_byte x + 256 * unsigned_le b'
  end.

Definition unsigned_value (order : endianness) (b : bytes) : Z :=
  match order with
  | LittleEndian => unsigned_le b
  | BigEndian => unsigned_le (reverse b)
  end.

(** A socket between two messages: no header byte and no payload byte is
    held back, and nothing is waiting in the receive buffer. *)
Definition awaiting_header (s : JsonTcpClient) : Prop :=
  _header_complete s = false ∧ _header_buf s = [] ∧ _data_buf s = []
  ∧ rx s = [].


(** What the drain loop still has to get through, counted so that every
    pass lowers it. *)
Definition measure (s : JsonTcpClient) : nat :=
  2 * length (rx s) + (if _header_complete s then 1 else 0).

Section Decode.
Context `{!Runtime}.

(** The value the payload handler parses out of a complete payload. *)
Definition parsed (payload : bytes) : option pyobj :=
  bytes_decode payload ≫= json_loads.

(** The pure part of the payload handler: what a complete payload decodes
    to, or the exception that ends the handler. *)
Definition decode_envelope (payload : bytes) : exn + (pyobj * pyobj) :=
  match bytes_decode payload with
  | None => inl UnicodeDecodeError
  | Some text =>
      match json_loads text with
      | None => inl ValueError
      | Some obj =>
          match getitem obj (u "results") with
          | inl e => inl e
          | inr results =>
              match getitem obj (u "status") with
              | inl e => inl e
              | inr status => inr (status, results)
              end
          end
      end
  end.

(** The signals a completed payload causes on a socket with callback [cb]. *)
Definition completion (cb : option nat) (payload : bytes) : trace :=
  match decode_envelope payload with
  | inr (status, results) =>
      match cb with
      | Some c => [Callback c status results]
      | None => []
      end ++ [Finished]
  | inl _ => []
  end.
(** The outcome of a frame whose payload is [payload], on a socket that
    awaited a header: the socket awaits the next header, or the handler
    raised with the payload still buffered. *)
Definition frame_outcome (port : Z) (cb : option nat) (ic : bool)
    (payload : bytes) (tr : trace) : result JsonTcpClient unit :=
  match decode_envelope payload with
  | inr _ => Ok () (Build_JsonTcpClient port false [] 0 [] cb ic []) tr
  | inl e => Raised e (Build_JsonTcpClient port true [] 0 payload cb ic []) tr
  end.
End Decode.

(** ** More of [JsonTcpClient]: the request *)

Definition set_is_connected (v : bool) (s : JsonTcpClient) : JsonTcpClient :=
  {| _port := _port s; _header_complete := _header_complete s;
     _header_buf := _header_buf s; _to_read := _to_read s;
     _data_buf := _data_buf s; _callback := _callback s;
     is_connected := v; rx := rx s |}.

(** The whole object: the attributes of the socket, and those that hold the
    request -- the [__module__] and [__name__] of the worker, its arguments,
    and the request id, which exists once a request was sent. *)
Record Client := {
  socket : JsonTcpClient;
  _worker : pystr * pystr;
  _args : pyobj;
  request_id : option pystr
}.

Definition set_socket (v : JsonTcpClient) (c : Client) : Client :=
  {| socket := v; _worker := _worker c; _args := _args c;
     request_id := request_id c |}.

Definition set_request_id (v : option pystr) (c : Client) : Client :=
  {| socket := socket c; _worker := _worker c; _args := _args c;
     request_id := v |}.

(** A method of the socket part, run on the whole object. *)
Definition on_socket {A} (m : M JsonTcpClient A) : M Client A := λ c,
  match m (socket c) with
  | Ok a s tr => Ok a (set_socket s c) tr
  | Raised e s tr => Raised e (set_socket s c) tr
  end.

(** [__init__(parent, port, worker_class_or_function, args, on_receive)]:
    the attributes, then [self._connect()]. *)
Definition new_client (port : Z) (worker : pystr * pystr) (args : pyobj)
    (on_receive : option nat) : result Client unit :=
  on_socket _connect
    {| socket := init port on_receive; _worker := worker; _args := args;
       request_id := None |}.

Section Request.
Context `{!Runtime}.

(** [uuid4] is the text of the UUID that [uuid.uuid4()] draws. *)
Definition _send_request (uuid4 : pystr) : M Client unit :=
  c ← get;
  let classname := (_worker c).1 ++ u "." ++ (_worker c).2 in
  modify (set_request_id (Some uuid4)) ;;
  on_socket
    (send (PyDict [(u "request_id", PyStr uuid4);
                   (u "worker", PyStr classname);
                   (u "data", _args c)])).

(** [peerName] and [peerPort] are what the socket answers to [peerName()]
    and [peerPort()]. *)
Definition _on_connected (peerName : pystr) (peerPort : Z) (uuid4 : pystr)
  : M Client unit :=
  debug "connected to backend: %s:%d" [AStr peerName; AInt peerPort] ;;
  modify (λ c, set_socket (set_is_connected true (socket c)) c) ;;
  _send_request uuid4.

(** The two [try] blocks guard against a logger or a socket that Qt has
    deleted at interpreter exit; on a live object neither statement
    raises. *)
Definition _on_disconnected (peerName : pystr) (peerPort : Z) : M Client unit :=
  debug "disconnected from backend: %s:%d" [AStr peerName; AInt peerPort] ;;
  modify (λ c, set_socket (set_is_connected false (socket c)) c).
End Request.

(** The slots of the single-shot timers a trace armed, in the order in
    which they were armed. *)
Fixpoint armed (tr : trace) : list slot :=
  match tr with
  | [] => []
  | SingleShot _ target :: tr' => target :: armed tr'
  | _ :: tr' => armed tr'
  end.

(** The timers fire in turn, each calling its slot.  The one slot there
    is, [_connect], never raises and arms no timer of its own; a slot that
    raised would leave the attributes as they were when it raised. *)
Fixpoint timeouts (targets : list slot) (s : JsonTcpClient)
  : JsonTcpClient * trace :=
  match targets with
  | [] => (s, [])
  | target :: targets' =>
      let r := fire target s in
      let '(s', tr) := timeouts targets' (state_of r) in
      (s', trace_of r ++ tr)
  end.

(** One socket error as the event loop sees it: the error handler runs,
    and the timers it armed -- none unless it called [QTimer.singleShot]
    -- fire afterwards. *)
Definition error_event (error : Z) (s : JsonTcpClient) : JsonTcpClient * trace :=
  let r := _on_error error s in
  let '(s', tr) := timeouts (armed (trace_of r)) (state_of r) in
  (s', trace_of r ++ tr).

(** A sequence of socket errors, the timers of each firing before the next
    error arrives. *)
Fixpoint socket_errors (errors : list Z) (s : JsonTcpClient)
  : JsonTcpClient * trace :=
  match errors with
  | [] => (s, [])
  | error :: errors' =>
      let '(s1, t1) := error_event error s in
      let '(s2, t2) := socket_errors errors' s1 in
      (s2, t1 ++ t2)
  end.

(** The connection attempts in a trace. *)
Fixpoint connects (tr : trace) : list (string * Z) :=
  match tr with
  | [] => []
  | ConnectToHost host port :: tr' => (host, port) :: connects tr'
  | _ :: tr' => connects tr'
  end.

(** The events a read handler may cause: log records, the callback and
    [finished]. *)
Definition read_event (e : event) : Prop :=
  match e with
  | Log _ _ _ _ | Callback _ _ _ | Finished => True
  | _ => False
  end.

(** What the read handlers keep true of the attributes: the bytes still to
    read fit the header, no header byte is held while a payload is read,
    and no payload byte is held while a header is read. *)
Definition consistent (s : JsonTcpClient) : Prop :=
  0 ≤ _to_read s < 2 ^ 32
  ∧ (_header_complete s = true → _header_buf s = [])
  ∧ (_header_complete s = false → _data_buf s = []).

(** ** The signals of the backend process *)

Inductive process_signal :=
| sig_started
| sig_error (code : Z)
| sig_finished (exit_code : Z)
| sig_stdout (chunk : bytes)
| sig_stderr (chunk : bytes)
| call_terminate.

Section Signals.
Context `{!Runtime}.

(** The slot [__init__] connected to each signal of the process;
    [call_terminate] is a call of [terminate()] by the owner. *)
Definition slot_of (sig : process_signal) : M ServerProcess unit :=
  match sig with
  | sig_started => _on_process_started
  | sig_error code => _on_process_error code
  | sig_finished exit_code => _on_process_finished exit_code
  | sig_stdout chunk => readyReadStandardOutput chunk
  | sig_stderr chunk => readyReadStandardError chunk
  | call_terminate => terminate
  end.

(** The supervisor after a sequence of signals; a slot that raises leaves
    the attributes as they were when it raised. *)
Fixpoint after_signals (sigs : list process_signal) (p : ServerProcess)
  : ServerProcess :=
  match sigs with
  | [] => p
  | sig :: sigs' => after_signals sigs' (state_of (slot_of sig p))
  end.
End Signals.

Definition is_started (sig : process_signal) : bool :=
  match sig with sig_started => true | _ => false end.

(** ** pcef: opening and saving a file *)

Inductive pcef_error := IOError | DecodeError | EncodeError.

(** What the two functions do to the editor and to the module logger. *)
Inductive editor_call :=
| textEdit_filename (filename : string)
| setLexerFromFilename (filename : string)
| setPlainText (content : pystr)
| ui_textEdit_dirty (v : bool)
| textEdit_dirty (v : bool)
| editor_filename (filename : string)
| logger_info (fmt : string) (filename : string).

(** [s.replace(old, new)] for a one-character [old]. *)
Fixpoint str_replace (s : pystr) (old : N) (new : pystr) : pystr :=
  match s with
  | [] => []
  | c :: s' => (if decide (c = old) then new else [c]) ++ str_replace s' old new
  end.

(** [s.count(c)] for a one-character [c]. *)
Fixpoint str_count (s : pystr) (c : N) : Z :=
  match s with
  | [] => 0
  | x :: s' => (if decide (x = c) then 1 else 0) + str_count s' c
  end.

Section Pcef.
(** The codec that the [encoding] argument names. *)
Variable encode : pystr → option bytes.
Variable decode : bytes → option pystr.

(** [files] maps the names of the existing files to their content;
    [TAB_SIZE] is [editor.TAB_SIZE]. *)
Definition openFileInEditor (files : gmap string bytes) (TAB_SIZE : Z)
    (filename : string) (replaceTabsBySpaces : bool)
  : pcef_error + list editor_call :=
  match files !! filename with
  | None => inl IOError
  | Some data =>
      match decode data with
      | None => inl DecodeError
      | Some content =>
          let content :=
            if replaceTabsBySpaces
            then str_replace content 9%N (repeat 32%N (Z.to_nat TAB_SIZE))
            else content in
          inr [textEdit_filename filename; setLexerFromFilename filename;
               setPlainText content; ui_textEdit_dirty false;
               logger_info "File opened: {0}" filename]
      end
  end.

(** [plain_text] is what [editor.textEdit.toPlainText()] answers.  The
    file is opened for writing, and so created or emptied, before the text
    is encoded; the directory is taken to be writable. *)
Definition saveFileFromEditor (files : gmap string bytes) (plain_text : pystr)
    (filename : string)
  : option pcef_error * gmap string bytes * list editor_call :=
  let files := <[filename := []]> files in
  match encode plain_text with
  | None => (Some EncodeError, files, [])
  | Some data =>
      (None, <[filename := data]> files,
       [textEdit_dirty false; editor_filename filename;
        logger_info "File saved: {0}" filename])
  end.
End Pcef.

(** ** More concrete inputs *)

(** The echo frame in three pieces, the first of which holds the header. *)
Definition echo_chunks : list bytes :=
  [take 10 echo_frame; take 5 (drop 10 echo_frame); drop 15 echo_frame].

(** A socket on which the frame of the empty list has arrived. *)
Definition wedged : JsonTcpClient :=
  Build_JsonTcpClient 0 true [] 0 (drop 4 (wire (PyList []))) (Some 7%nat)
    false [].

(** A client for the echo worker, and the request it sends with the id
    [r1]. *)
Definition echo_client : Client :=
  {| socket := init 0 (Some 7%nat);
     _worker := (u "workers", u "echo"); _args := PyStr (u "hi");
     request_id := None |}.

Definition echo_request : pyobj :=
  PyDict [(u "request_id", PyStr (u "r1"));
          (u "worker", PyStr (u "workers.echo"));
          (u "data", PyStr (u "hi"))].

Definition echo_request_payload : bytes := drop 4 (wire echo_request).

(** Two lines of process output, each ended by a newline. *)
Definition two_lines : bytes :=
  ascii_bytes "ab" ++ [x0a] ++ ascii_bytes "cd" ++ [x0a].

(** A directory with one file, whose text holds a tab. *)
Definition one_file : gmap string bytes :=
  {[ "main.py"%string := ascii_bytes "x" ++ [x09] ++ ascii_bytes "y" ]}.

(** * Properties *)

(** Unfolds the operations of the handler monad. *)
Ltac run :=
  unfold lift_sum, lift_opt, debug, info in *;
  unfold emit, modify, get, read, raise, mbind, M_bind, mret, M_ret in *.

(** ** The socket error handler *)

Lemma socket_key_found (error : Z) :
  is_Some (SOCKET_ERROR_STRINGS
             !! (if negb (contains SOCKET_ERROR_STRINGS error) then -1 else error)).
Proof.
  unfold contains. case_bool_decide as Hin; simpl; [done|].
  by eexists.
Qed.

(** C9.  The socket error handler is total over error codes: for every
    integer [error], known to the table or not, the key it looks up -- the
    code itself when the table has it, [-1] otherwise -- is in
    [SOCKET_ERROR_STRINGS], so the lookup raises no [KeyError] and the
    handler returns, having logged that entry and left the attributes as
    they were. *)
Theorem on_error_total (error : Z) (s : JsonTcpClient) :
  ∃ msg tr,
    SOCKET_ERROR_STRINGS
      !! (if contains SOCKET_ERROR_STRINGS error then error else -1) = Some msg
    ∧ _on_error error s = Ok () s (Log _logger DEBUG msg [] :: tr).
Proof.
  destruct (socket_key_found error) as [msg Hmsg].
  exists msg. unfold _on_error, table_getitem.
  destruct (contains SOCKET_ERROR_STRINGS error); simpl in *; rewrite Hmsg; run;
    simpl; try case_bool_decide; eauto.
Qed.

(** C5.  On a socket error the handler logs the message of the error and
    schedules one more [_connect], 100 ms later, exactly when the error is
    0 (connection refused); for every other code the log record is all it
    does.  The timer, when it fires, connects to the same port again. *)
Theorem retry_iff_refused (error : Z) (s : JsonTcpClient) :
  ∃ msg,
    SOCKET_ERROR_STRINGS
      !! (if contains SOCKET_ERROR_STRINGS error then error else -1) = Some msg
    ∧ _on_error error s
    = Ok () s (Log _logger DEBUG msg []
               :: if bool_decide (error = 0) then [SingleShot 100 Slot_connect] else [])
    ∧ (SingleShot 100 Slot_connect ∈ trace_of (_on_error error s) ↔ error = 0)
    ∧ trace_of (fire Slot_connect s)
      = [Log _logger DEBUG "connecting to 127.0.0.1:%d" [AInt (_port s)];
         ConnectToHost "127.0.0.1" (_port s)].
Proof.
  destruct (socket_key_found error) as [msg Hmsg].
  exists msg. unfold _on_error, table_getitem.
  unfold contains in *. case_bool_decide as Hin; simpl in *; rewrite Hmsg; run; simpl.
  - split; [done|].
    case_bool_decide as H0; simpl; (split; [done|]); (split; [|done]).
    + split; [done|]. intros _. apply list_elem_of_In. simpl. tauto.
    + split; [|done]. intros Hel. apply list_elem_of_singleton in Hel. discriminate.
  - split; [done|].
    assert (error ≠ 0) as Hne.
    { intros ->. apply Hin. by eexists. }
    rewrite (bool_decide_false (error = 0)); [|done].
    (split; [done|]); (split; [|done]).
    split; [|done]. intros Hel. apply list_elem_of_singleton in Hel. discriminate.
Qed.

(** ** The length header *)

Lemma Z_of_byte_range (b : byte) : 0 ≤ Z_of_byte b < 256.
Proof.
  unfold Z_of_byte. pose proof (Byte.to_N_bounded b) as Hb. lia.
Qed.

Lemma Z_of_byte_of_Z (z : Z) : Z_of_byte (byte_of_Z z) = z mod 256.
Proof.
  unfold Z_of_byte, byte_of_Z.
  change 255 with (Z.ones 8). rewrite Z.land_ones by lia.
  change (2 ^ 8) with 256.
  pose proof (Z.mod_pos_bound z 256 ltac:(lia)) as Hm.
  pose proof (Byte.to_of_N_option_map (Z.to_N (z mod 256))) as Hb.
  destruct (Byte.of_N (Z.to_N (z mod 256))) as [b|] eqn:Hof; simpl in *.
  - destruct (N.leb_spec (Z.to_N (z mod 256)) 255) as [Hle|Hgt]; [|done].
    injection Hb as ->. lia.
  - destruct (N.leb_spec (Z.to_N (z mod 256)) 255) as [Hle|Hgt]; [done|]. lia.
Qed.

Lemma lor_shiftl_add (x y k : Z) :
  0 ≤ k → 0 ≤ x < 2 ^ k → Z.lor x (Z.shiftl y k) = x + y * 2 ^ k.
Proof.
  intros Hk Hx. rewrite <- Z.shiftl_mul_pow2 by done.
  symmetry. apply Z.add_nocarry_lor.
  apply Z.bits_inj'. intros i Hi.
  rewrite Z.land_spec, Z.bits_0.
  destruct (Z.ltb_spec i k) as [Hlt|Hge].
  - rewrite Z.shiftl_spec_low by done. apply andb_false_r.
  - rewrite <- (Z.mod_small x (2 ^ k)) by done.
    rewrite Z.mod_pow2_bits_high by lia. done.
Qed.

Lemma le_value_unsigned (b0 b1 b2 b3 : byte) :
  le_value b0 b1 b2 b3 = unsigned_le [b0; b1; b2; b3].
Proof.
  unfold le_value. simpl.
  pose proof (Z_of_byte_range b0). pose proof (Z_of_byte_range b1).
  pose proof (Z_of_byte_range b2). pose proof (Z_of_byte_range b3).
  rewrite !Z.shiftl_mul_pow2 by lia.
  replace (Z_of_byte b2 * 2 ^ 16) with (Z.shiftl (Z_of_byte b2 * 2 ^ 8) 8)
    by (rewrite Z.shiftl_mul_pow2; lia).
  replace (Z_of_byte b3 * 2 ^ 24) with (Z.shiftl (Z_of_byte b3 * 2 ^ 16) 8)
    by (rewrite Z.shiftl_mul_pow2; lia).
  rewrite <- Z.shiftl_lor.
  replace (Z_of_byte b1 * 2 ^ 8) with (Z.shiftl (Z_of_byte b1) 8)
    by (rewrite Z.shiftl_mul_pow2; lia).
  rewrite <- Z.shiftl_lor.
  rewrite lor_shiftl_add by (change (2 ^ 8) with 256; lia).
  replace (Z_of_byte b3 * 2 ^ 16) with (Z.shiftl (Z_of_byte b3 * 2 ^ 8) 8)
    by (rewrite Z.shiftl_mul_pow2; lia).
  replace (Z_of_byte b2 * 2 ^ 8) with (Z.shiftl (Z_of_byte b2) 8)
    by (rewrite Z.shiftl_mul_pow2; lia).
  rewrite <- Z.shiftl_lor.
  rewrite lor_shiftl_add by (change (2 ^ 8) with 256; lia).
  replace (Z_of_byte b3 * 2 ^ 8) with (Z.shiftl (Z_of_byte b3) 8)
    by (rewrite Z.shiftl_mul_pow2; lia).
  rewrite lor_shiftl_add by (change (2 ^ 8) with 256; lia).
  change (2 ^ 8) with 256. lia.
Qed.

Lemma unsigned_le_bytes (n : Z) : 0 ≤ n < 2 ^ 32 → unsigned_le (le_bytes n) = n.
Proof.
  intros Hn. unfold le_bytes. simpl. rewrite !Z_of_byte_of_Z.
  rewrite !Z.shiftr_div_pow2 by lia.
  change (2 ^ 8) with 256. change (2 ^ 16) with 65536.
  change (2 ^ 24) with 16777216. change (2 ^ 32) with 4294967296 in Hn.
  Z.div_mod_to_equations. lia.
Qed.

Lemma struct_unpack_value (order : endianness) (b : bytes) (n : Z) :
  struct_unpack_I order b = inr n → length b = 4%nat ∧ unsigned_value order b = n.
Proof.
  unfold struct_unpack_I.
  destruct b as [|b0 [|b1 [|b2 [|b3 [|]]]]]; try done.
  intros [= <-]. split; [done|].
  destruct order; simpl; rewrite le_value_unsigned; done.
Qed.

Lemma struct_pack_unpack (order : endianness) (n : Z) :
  0 ≤ n < 2 ^ 32 →
  ∃ header, struct_pack_I order n = inr header ∧ length header = 4%nat
            ∧ struct_unpack_I order header = inr n.
Proof.
  intros Hn. unfold struct_pack_I. rewrite bool_decide_true by done.
  eexists; split; [done|].
  pose proof (unsigned_le_bytes n Hn) as Hv.
  destruct order; (split; [done|]).
  - unfold le_bytes in *. unfold struct_unpack_I.
    rewrite le_value_unsigned. by rewrite Hv.
  - unfold le_bytes in *. cbn [reverse rev_append]. unfold struct_unpack_I.
    rewrite le_value_unsigned. by rewrite Hv.
Qed.

Lemma struct_pack_range (order : endianness) (n : Z) :
  ¬ (0 ≤ n < 2 ^ 32) → struct_pack_I order n = inl StructError.
Proof. intros Hn. unfold struct_pack_I. by rewrite bool_decide_false. Qed.

(** ** The read handlers *)

Section ClientFacts.
Context `{!Runtime}.

Lemma read_header_eq (s : JsonTcpClient) :
  _read_header s =
    let buf := _header_buf s ++ take 4 (rx s) in
    let s1 := set_header_buf buf (set_rx (drop 4 (rx s)) s) in
    if bool_decide (length buf = 4%nat) then
      match struct_unpack_I byteorder buf with
      | inr header =>
          Ok () (set_header_buf [] (set_to_read header (set_header_complete true s1)))
            [Log _logger DEBUG "reading header" [];
             Log _logger DEBUG "header content: %d" [AInt header]]
      | inl e =>
          Raised e (set_header_complete true s1)
            [Log _logger DEBUG "reading header" []]
      end
    else Ok () s1 [Log _logger DEBUG "reading header" []].
Proof.
  unfold _read_header. run. cbn -[take drop length struct_unpack_I Z.to_nat].
  change (Z.to_nat 4) with 4%nat.
  case_bool_decide; [destruct (struct_unpack_I _ _)|]; reflexivity.
Qed.

Lemma read_payload_pending (s : JsonTcpClient) :
  let data_read := take (Z.to_nat (_to_read s)) (rx s) in
  let s1 :=
    set_to_read (_to_read s - Z.of_nat (length data_read))
      (set_data_buf (_data_buf s ++ data_read)
         (set_rx (drop (Z.to_nat (_to_read s)) (rx s)) s)) in
  ¬ (_to_read s1 ≤ 0) →
  _read_payload s =
    Ok () s1
      [Log _logger DEBUG "reading payload data" [];
       Log _logger DEBUG "remaining bytes to read: %d" [AInt (_to_read s)];
       Log _logger DEBUG "%d bytes read" [AInt (Z.of_nat (length data_read))]].
Proof.
  intros data_read s1 Hpos. unfold _read_payload. run.
  cbn -[take drop length Z.to_nat Z.of_nat Z.sub].
  fold data_read. rewrite bool_decide_false; [done|]. exact Hpos.
Qed.

Lemma read_payload_complete (s : JsonTcpClient) :
  let data_read := take (Z.to_nat (_to_read s)) (rx s) in
  let s1 :=
    set_to_read (_to_read s - Z.of_nat (length data_read))
      (set_data_buf (_data_buf s ++ data_read)
         (set_rx (drop (Z.to_nat (_to_read s)) (rx s)) s)) in
  let pre :=
    [Log _logger DEBUG "reading payload data" [];
     Log _logger DEBUG "remaining bytes to read: %d" [AInt (_to_read s)];
     Log _logger DEBUG "%d bytes read" [AInt (Z.of_nat (length data_read))]] in
  _to_read s1 ≤ 0 →
  _read_payload s =
    match bytes_decode (_data_buf s1) with
    | None => Raised UnicodeDecodeError s1 pre
    | Some data =>
        let pre :=
          pre ++
          [Log _logger DEBUG "payload read: %r" [AStr data];
           Log _logger DEBUG "payload length: %r"
             [AInt (Z.of_nat (length (_data_buf s1)))];
           Log _logger DEBUG "decoding payload as json object" []] in
        match json_loads data with
        | None => Raised ValueError s1 pre
        | Some obj =>
            let pre := pre ++ [Log _logger DEBUG "response received: %r" [AObj obj]] in
            match getitem obj (u "results") with
            | inl e => Raised e s1 pre
            | inr results =>
                match getitem obj (u "status") with
                | inl e => Raised e s1 pre
                | inr status =>
                    Ok () (set_data_buf [] (set_header_complete false s1))
                      (pre ++
                       match _callback s with
                       | Some cb => [Callback cb status results]
                       | None => []
                       end ++ [Finished])
                end
            end
        end
    end.
Proof.
  intros data_read s1 pre Hle. unfold _read_payload. run.
  cbn -[take drop length Z.to_nat Z.of_nat Z.sub getitem u].
  fold data_read. rewrite bool_decide_true; [|exact Hle].
  cbn -[take drop length Z.to_nat Z.of_nat Z.sub getitem u].
  destruct (bytes_decode _) as [data|]; [|reflexivity].
  destruct (json_loads data) as [obj|]; [|reflexivity].
  destruct (getitem obj (u "results")) as [e|results]; [reflexivity|].
  destruct (getitem obj (u "status")) as [e|status]; [reflexivity|].
  destruct (_callback s); reflexivity.
Qed.

Lemma read_payload_cases (s : JsonTcpClient) :
  let data_read := take (Z.to_nat (_to_read s)) (rx s) in
  let s1 :=
    set_to_read (_to_read s - Z.of_nat (length data_read))
      (set_data_buf (_data_buf s ++ data_read)
         (set_rx (drop (Z.to_nat (_to_read s)) (rx s)) s)) in
  (¬ (_to_read s1 ≤ 0) ∧ ∃ tr, _read_payload s = Ok () s1 tr ∧ signals tr = [])
  ∨ (_to_read s1 ≤ 0 ∧
     ((∃ e tr, _read_payload s = Raised e s1 tr ∧ signals tr = [])
      ∨ (∃ tr, _read_payload s
               = Ok () (set_data_buf [] (set_header_complete false s1)) tr
               ∧ Finished ∈ tr))).
Proof.
  intros data_read s1.
  destruct (decide (_to_read s1 ≤ 0)) as [Hle|Hpos].
  - right. split; [done|].
    rewrite (read_payload_complete s Hle). fold data_read s1.
    destruct (bytes_decode _) as [data|]; [|left; by eauto].
    destruct (json_loads data) as [obj|]; [|left; by eauto].
    destruct (getitem obj (u "results")) as [e|results]; [left; by eauto|].
    destruct (getitem obj (u "status")) as [e|status]; [left; by eauto|].
    right. eexists; split; [done|].
    rewrite !elem_of_app. right. right. apply list_elem_of_singleton. done.
  - left. split; [done|]. rewrite (read_payload_pending s Hpos). eauto.
Qed.

Lemma body_progress (s s' : JsonTcpClient) (tr : trace) :
  rx s ≠ [] →
  ready_read_body s = Ok () s' tr →
  (length (rx s') < length (rx s))%nat
  ∨ (length (rx s') = length (rx s) ∧ _header_complete s = true
     ∧ _header_complete s' = false ∧ Finished ∈ tr).
Proof.
  intros Hrx. unfold ready_read_body. run. cbn.
  assert (0 < length (rx s))%nat as Hlen by (destruct (rx s); [done|simpl; lia]).
  destruct (_header_complete s) eqn:Hc; cbn.
  - destruct (read_payload_cases s) as [[Hpos (t & -> & _)]|[Hle [(e & t & -> & _)|(t & -> & Hfin)]]];
      [|done|]; intros [= <- <-]; cbn in *.
    + left. rewrite length_drop. rewrite length_take in Hpos. lia.
    + rewrite length_drop.
      destruct (decide (Z.to_nat (_to_read s) = 0%nat)) as [->|]; [|left; lia].
      right. split_and!; [lia|done..].
  - rewrite read_header_eq. cbn.
    case_bool_decide; [destruct (struct_unpack_I _ _); [done|]|];
      intros [= <- <-]; cbn; left; rewrite length_drop; lia.
Qed.

Lemma on_ready_read_empty (fuel : nat) (s : JsonTcpClient) :
  rx s = [] → _on_ready_read (S fuel) s = Some (Ok () s []).
Proof.
  intros Hrx. simpl. rewrite bool_decide_true; [done|].
  unfold bytesAvailable. by rewrite Hrx.
Qed.

Lemma on_ready_read_step (fuel : nat) (s : JsonTcpClient) :
  rx s ≠ [] →
  _on_ready_read (S fuel) s =
    match ready_read_body s with
    | Ok _ s1 t1 =>
        match _on_ready_read fuel s1 with
        | Some (Ok _ s2 t2) => Some (Ok () s2 (t1 ++ t2))
        | Some (Raised e s2 t2) => Some (Raised e s2 (t1 ++ t2))
        | None => None
        end
    | Raised e s1 t1 => Some (Raised e s1 t1)
    end.
Proof.
  intros Hrx. simpl. rewrite bool_decide_false; [done|].
  unfold bytesAvailable. destruct (rx s); [done|simpl; lia].
Qed.

Lemma fuel_mono (fuel fuel' : nat) (s : JsonTcpClient) r :
  _on_ready_read fuel s = Some r → (fuel ≤ fuel')%nat →
  _on_ready_read fuel' s = Some r.
Proof.
  revert fuel' s r. induction fuel as [|fuel IH]; intros fuel' s r; [done|].
  intros Hr Hle. destruct fuel' as [|fuel']; [lia|].
  destruct (decide (rx s = [])) as [Hrx|Hrx].
  - rewrite on_ready_read_empty in Hr |- *; done.
  - rewrite on_ready_read_step in Hr |- * by done.
    destruct (ready_read_body s) as [[] s1 t1|e s1 t1]; [|done].
    destruct (_on_ready_read fuel s1) as [r1|] eqn:Hr1; [|done].
    rewrite (IH fuel' s1 r1 Hr1) by lia. done.
Qed.

Lemma body_decreases (s s' : JsonTcpClient) (tr : trace) :
  rx s ≠ [] → ready_read_body s = Ok () s' tr → (measure s' < measure s)%nat.
Proof.
  intros Hrx Hb. unfold measure.
  destruct (body_progress s s' tr Hrx Hb) as [Hlt|(Heq & -> & -> & _)]; [|lia].
  destruct (_header_complete s'), (_header_complete s); lia.
Qed.

Lemma drain_total (n : nat) (s : JsonTcpClient) :
  (measure s < n)%nat →
  ∃ r, ∀ fuel, (n ≤ fuel)%nat → _on_ready_read fuel s = Some r.
Proof.
  revert s. induction n as [|n IH]; intros s Hm; [lia|].
  destruct (decide (rx s = [])) as [Hrx|Hrx].
  { exists (Ok () s []). intros [|fuel] Hf; [lia|]. by apply on_ready_read_empty. }
  destruct (ready_read_body s) as [[] s1 t1|e s1 t1] eqn:Hb.
  - pose proof (body_decreases s s1 t1 Hrx Hb) as Hdec.
    destruct (IH s1 ltac:(lia)) as [r1 Hr1].
    exists (match r1 with
            | Ok _ s2 t2 => Ok () s2 (t1 ++ t2)
            | Raised e s2 t2 => Raised e s2 (t1 ++ t2)
            end).
    intros [|fuel] Hf; [lia|].
    rewrite on_ready_read_step by done. rewrite Hb, (Hr1 fuel) by lia.
    by destruct r1.
  - exists (Raised e s1 t1). intros [|fuel] Hf; [lia|].
    rewrite on_ready_read_step by done. by rewrite Hb.
Qed.

(** C10.  The drain loop of [_on_ready_read] terminates whatever the
    receive buffer holds: [passes s] passes are enough, and more fuel does
    not change the result.  A pass that returns either took bytes from the
    buffer or completed the current message and reset the header state
    (the case [bytesAvailable s = 0] is the one in which the loop runs no
    pass); a pass that raises ends the loop with it. *)
Theorem drain_loop_terminates (s : JsonTcpClient) :
  (∃ r, ∀ fuel, (passes s ≤ fuel)%nat → _on_ready_read fuel s = Some r)
  ∧ match ready_read_body s with
    | Ok _ s' tr =>
        bytesAvailable s = 0
        ∨ bytesAvailable s' < bytesAvailable s
        ∨ (bytesAvailable s' = bytesAvailable s ∧ _header_complete s = true
           ∧ _header_complete s' = false ∧ Finished ∈ tr)
    | Raised _ _ _ => True
    end.
Proof.
  split.
  - apply drain_total. unfold measure, passes.
    destruct (_header_complete s); lia.
  - destruct (ready_read_body s) as [[] s' tr|] eqn:Hb; [|done].
    destruct (decide (rx s = [])) as [Hrx|Hrx].
    { left. unfold bytesAvailable. by rewrite Hrx. }
    right. unfold bytesAvailable.
    destruct (body_progress s s' tr Hrx Hb) as [Hlt|(Heq & ? & ? & ?)].
    + left. lia.
    + right. rewrite Heq. done.
Qed.
End ClientFacts.

(** ** Frames *)

Section Frames.
Context `{!Runtime}.

(** The header of a frame arrives in one piece. *)
Lemma header_step (port t : Z) (cb : option nat) (ic : bool)
    (header rest : bytes) (n : Z) :
  struct_unpack_I byteorder header = inr n →
  ready_read_body (Build_JsonTcpClient port false [] t [] cb ic (header ++ rest))
  = Ok () (Build_JsonTcpClient port true [] n [] cb ic rest)
      [Log _logger DEBUG "reading header" [];
       Log _logger DEBUG "header content: %d" [AInt n]].
Proof.
  intros Hn. destruct (struct_unpack_value _ _ _ Hn) as [Hlen _].
  unfold ready_read_body. run. cbn -[_read_header].
  rewrite read_header_eq. cbn -[take drop length struct_unpack_I].
  rewrite take_app_length', drop_app_length' by done.
  rewrite bool_decide_true by done. by rewrite Hn.
Qed.

(** The bytes [avail] that have arrived are fewer than the [n] still
    expected: the payload handler takes them all into the buffer. *)
Lemma payload_step_pending (port : Z) (cb : option nat) (ic : bool)
    (data avail : bytes) (n : Z) :
  Z.of_nat (length avail) < n →
  ∃ tr,
    ready_read_body (Build_JsonTcpClient port true [] n data cb ic avail)
    = Ok () (Build_JsonTcpClient port true [] (n - Z.of_nat (length avail))
               (data ++ avail) cb ic []) tr
    ∧ signals tr = [].
Proof.
  intros Hlt. unfold ready_read_body. run. cbn -[_read_payload].
  pose proof (read_payload_pending
                (Build_JsonTcpClient port true [] n data cb ic avail)) as Hp.
  cbn -[take drop length Z.to_nat Z.of_nat Z.sub] in Hp.
  rewrite take_ge, drop_ge in Hp by lia.
  rewrite Hp by lia. eauto.
Qed.

Lemma payload_step_complete (port : Z) (cb : option nat) (ic : bool)
    (data avail rest : bytes) :
  let s1 := Build_JsonTcpClient port true [] 0 (data ++ avail) cb ic rest in
  let pre :=
    [Log _logger DEBUG "reading payload data" [];
     Log _logger DEBUG "remaining bytes to read: %d" [AInt (Z.of_nat (length avail))];
     Log _logger DEBUG "%d bytes read" [AInt (Z.of_nat (length avail))]] in
  ready_read_body
    (Build_JsonTcpClient port true [] (Z.of_nat (length avail)) data cb ic
       (avail ++ rest))
  = match bytes_decode (data ++ avail) with
    | None => Raised UnicodeDecodeError s1 pre
    | Some text =>
        let pre :=
          pre ++
          [Log _logger DEBUG "payload read: %r" [AStr text];
           Log _logger DEBUG "payload length: %r"
             [AInt (Z.of_nat (length (data ++ avail)))];
           Log _logger DEBUG "decoding payload as json object" []] in
        match json_loads text with
        | None => Raised ValueError s1 pre
        | Some obj =>
            let pre :=
              pre ++ [Log _logger DEBUG "response received: %r" [AObj obj]] in
            match getitem obj (u "results") with
            | inl e => Raised e s1 pre
            | inr results =>
                match getitem obj (u "status") with
                | inl e => Raised e s1 pre
                | inr status =>
                    Ok () (Build_JsonTcpClient port false [] 0 [] cb ic rest)
                      (pre ++
                       match cb with
                       | Some c => [Callback c status results]
                       | None => []
                       end ++ [Finished])
                end
            end
        end
    end.
Proof.
  intros s1 pre. unfold ready_read_body. run. cbn -[_read_payload].
  pose proof (read_payload_complete
                (Build_JsonTcpClient port true [] (Z.of_nat (length avail))
                   data cb ic (avail ++ rest))) as Hp.
  cbn -[take drop length Z.to_nat Z.of_nat Z.sub getitem u] in Hp.
  rewrite Nat2Z.id, take_app_length, drop_app_length, Z.sub_diag in Hp.
  rewrite Hp by lia. fold s1 pre.
  destruct (bytes_decode _) as [text|]; [|reflexivity].
  destruct (json_loads text) as [obj|]; [|reflexivity].
  destruct (getitem obj (u "results")) as [e|results]; [reflexivity|].
  destruct (getitem obj (u "status")) as [e|status]; reflexivity.
Qed.

Lemma signals_app (t1 t2 : trace) : signals (t1 ++ t2) = signals t1 ++ signals t2.
Proof. apply filter_app. Qed.

Lemma payload_completion (port : Z) (cb : option nat) (ic : bool)
    (data avail rest : bytes) :
  ∃ tr,
    ready_read_body
      (Build_JsonTcpClient port true [] (Z.of_nat (length avail)) data cb ic
         (avail ++ rest))
    = match decode_envelope (data ++ avail) with
      | inr _ => Ok () (Build_JsonTcpClient port false [] 0 [] cb ic rest) tr
      | inl e =>
          Raised e (Build_JsonTcpClient port true [] 0 (data ++ avail) cb ic rest) tr
      end
    ∧ signals tr = completion cb (data ++ avail)
    ∧ ∀ obj, parsed (data ++ avail) = Some obj →
             Log _logger DEBUG "response received: %r" [AObj obj] ∈ tr.
Proof.
  rewrite payload_step_complete. unfold completion, decode_envelope, parsed.
  destruct (bytes_decode _) as [text|]; cbn -[getitem u];
    [|eexists; split_and!; [done..|]; by intros].
  destruct (json_loads text) as [obj|]; cbn -[getitem u];
    [|eexists; split_and!; [done..|]; by intros].
  assert (∀ (l : trace) o,
    Some obj = Some o →
    Log _logger DEBUG "response received: %r" [AObj o]
    ∈ Log _logger DEBUG "reading payload data" []
      :: Log _logger DEBUG "remaining bytes to read: %d" [AInt (Z.of_nat (length avail))]
      :: Log _logger DEBUG "%d bytes read" [AInt (Z.of_nat (length avail))]
      :: Log _logger DEBUG "payload read: %r" [AStr text]
      :: Log _logger DEBUG "payload length: %r" [AInt (Z.of_nat (length (data ++ avail)))]
      :: Log _logger DEBUG "decoding payload as json object" []
      :: Log _logger DEBUG "response received: %r" [AObj obj] :: l) as Hlog.
  { intros l o [= <-]. rewrite !elem_of_cons. tauto. }
  destruct (getitem obj (u "results")) as [e|results];
    [eexists; split_and!; [done..|]; apply (Hlog [])|].
  destruct (getitem obj (u "status")) as [e|status];
    [eexists; split_and!; [done..|]; apply (Hlog [])|].
  eexists; split_and!; [done| |apply Hlog].
  by destruct cb.
Qed.

(** A whole frame arrives in one read on a socket that awaits a header. *)
Lemma deliver_frame (port t : Z) (cb : option nat) (ic : bool)
    (header msg : bytes) :
  struct_unpack_I byteorder header = inr (Z.of_nat (length msg)) →
  msg ≠ [] →
  ∃ tr,
    readyRead (header ++ msg) (Build_JsonTcpClient port false [] t [] cb ic [])
    = Some
        match decode_envelope msg with
        | inr _ => Ok () (Build_JsonTcpClient port false [] 0 [] cb ic []) tr
        | inl e => Raised e (Build_JsonTcpClient port true [] 0 msg cb ic []) tr
        end
    ∧ signals tr = completion cb msg
    ∧ ∀ obj, parsed msg = Some obj →
             Log _logger DEBUG "response received: %r" [AObj obj] ∈ tr.
Proof.
  intros Hn Hmsg.
  destruct (payload_completion port cb ic [] msg []) as (tr & Hbody & Hsig & Hlog).
  rewrite app_nil_r in Hbody. cbn [app] in Hbody, Hsig, Hlog.
  exists ([Log _logger DEBUG "reading header" [];
           Log _logger DEBUG "header content: %d" [AInt (Z.of_nat (length msg))]]
          ++ tr).
  split_and!.
  - unfold readyRead, set_rx. cbn -[_on_ready_read passes].
    apply (fuel_mono 3).
    2:{ destruct (struct_unpack_value _ _ _ Hn) as [Hlen _].
        unfold passes. cbn [rx]. rewrite length_app. lia. }
    rewrite on_ready_read_step by (cbn; by destruct header).
    rewrite (header_step _ _ _ _ _ _ _ Hn).
    rewrite on_ready_read_step by done.
    rewrite Hbody.
    destruct (decode_envelope msg) as [e|[status results]]; [done|].
    rewrite on_ready_read_empty by done. by rewrite app_nil_r.
  - rewrite signals_app. done.
  - intros obj Hobj. apply elem_of_app. right. by apply Hlog.
Qed.

End Frames.

Section Claims.
Context `{!Runtime}.

Lemma awaiting_header_inv (s : JsonTcpClient) :
  awaiting_header s →
  s = Build_JsonTcpClient (_port s) false [] (_to_read s) [] (_callback s)
        (is_connected s) [].
Proof. destruct s. unfold awaiting_header. cbn. by intros (-> & -> & -> & ->). Qed.

Lemma send_eq (obj : pyobj) (s : JsonTcpClient) :
  send obj s =
    match str_encode (json_dumps obj) with
    | None =>
        Raised UnicodeEncodeError s
          [Log _logger DEBUG "sending request: %r" [AObj obj]]
    | Some msg =>
        match struct_pack_I byteorder (Z.of_nat (length msg)) with
        | inl e => Raised e s [Log _logger DEBUG "sending request: %r" [AObj obj]]
        | inr header =>
            Ok () s [Log _logger DEBUG "sending request: %r" [AObj obj];
                     Write header; Write msg]
        end
    end.
Proof.
  unfold send. run. cbn -[struct_pack_I length].
  destruct (str_encode _) as [msg|]; [|done].
  cbn -[struct_pack_I length]. by destruct (struct_pack_I _ _).
Qed.

(** C2, as the code has it.  A header that decodes to length 0 completes
    nothing in the read that delivers it: the socket only records a complete
    header with nothing left to read, and neither the callback nor
    [finished] happens while no further byte arrives.  The next read takes
    none of the new bytes and hands the empty payload to the decoder; as
    the empty payload does not decode, the handler raises, still without a
    signal, and the new bytes stay in the receive buffer. *)
Theorem zero_length_completes_nothing (s : JsonTcpClient) (header more : bytes)
    (e : exn) :
  awaiting_header s →
  struct_unpack_I byteorder header = inr 0 →
  more ≠ [] →
  decode_envelope [] = inl e →
  ∃ s1 tr1 s2 tr2,
    readyRead header s = Some (Ok () s1 tr1)
    ∧ signals tr1 = []
    ∧ _header_complete s1 = true ∧ _to_read s1 = 0 ∧ _data_buf s1 = []
    ∧ rx s1 = []
    ∧ readyRead more s1 = Some (Raised e s2 tr2)
    ∧ signals tr2 = []
    ∧ rx s2 = more.
Proof.
  intros Hs Hn Hmore He. rewrite (awaiting_header_inv s Hs).
  destruct (struct_unpack_value _ _ _ Hn) as [Hlen _].
  destruct (payload_completion (_port s) (_callback s) (is_connected s) [] [] more)
    as (tr2 & Hbody & Hsig & _).
  cbn [app length] in Hbody, Hsig. unfold completion in Hsig.
  rewrite He in Hbody, Hsig.
  eexists _, _, _, tr2. split_and!.
  - unfold readyRead, set_rx. cbn -[_on_ready_read passes].
    apply (fuel_mono 2); [|unfold passes; cbn [rx]; lia].
    rewrite on_ready_read_step by (cbn; by destruct header).
    rewrite <- (app_nil_r header) at 1.
    rewrite (header_step _ _ _ _ _ _ _ Hn).
    rewrite on_ready_read_empty by done. done.
  - done.
  - done.
  - done.
  - done.
  - done.
  - unfold readyRead, set_rx. cbn -[_on_ready_read passes].
    apply (fuel_mono 1); [|unfold passes; lia].
    rewrite on_ready_read_step by done.
    change (Z.of_nat 0) with 0 in Hbody. by rewrite Hbody.
  - done.
  - done.
Qed.


(** C4, as the code has it.  For a payload of fewer than [2 ^ 32] bytes,
    [send] writes a header of exactly 4 bytes, whose unsigned value in the
    native byte order is the byte length of the payload, and then the
    payload; [_read_header], given these bytes, parses the same number with
    the same format and leaves what follows the header in the buffer. *)
Theorem header_is_payload_length (obj : pyobj) (msg rest : bytes)
    (tx s : JsonTcpClient) :
  str_encode (json_dumps obj) = Some msg →
  Z.of_nat (length msg) < 2 ^ 32 →
  awaiting_header s →
  ∃ header s' tr,
    send obj tx
    = Ok () tx [Log _logger DEBUG "sending request: %r" [AObj obj];
                Write header; Write msg]
    ∧ length header = 4%nat
    ∧ unsigned_value byteorder header = Z.of_nat (length msg)
    ∧ _read_header (set_rx (header ++ rest) s) = Ok () s' tr
    ∧ _header_complete s' = true
    ∧ _to_read s' = Z.of_nat (length msg)
    ∧ _header_buf s' = []
    ∧ rx s' = rest.
Proof.
  intros Hmsg Hlen Hs.
  destruct (struct_pack_unpack byteorder (Z.of_nat (length msg)) ltac:(lia))
    as (header & Hpack & Hlen4 & Hunpack).
  destruct (struct_unpack_value _ _ _ Hunpack) as [_ Hval].
  exists header. rewrite send_eq, Hmsg, Hpack.
  rewrite read_header_eq. destruct Hs as (Hc & Hb & Hd & Hrx).
  cbn -[take drop length struct_unpack_I]. rewrite Hb.
  cbn -[take drop length struct_unpack_I].
  rewrite take_app_length', drop_app_length' by done.
  rewrite bool_decide_true by done. rewrite Hunpack.
  eexists _, _. split_and!; done.
Qed.
End Claims.

(** ** Chunk boundaries *)

Section Chunks.
Context `{!Runtime}.

(** Payload bytes that arrive while more are expected are only buffered. *)
Lemma ready_read_pending (port : Z) (cb : option nat) (ic : bool)
    (data chunk : bytes) (n : Z) :
  chunk ≠ [] → Z.of_nat (length chunk) < n →
  ∃ tr,
    readyRead chunk (Build_JsonTcpClient port true [] n data cb ic [])
    = Some (Ok () (Build_JsonTcpClient port true [] (n - Z.of_nat (length chunk))
                     (data ++ chunk) cb ic []) tr)
    ∧ signals tr = [].
Proof.
  intros Hne Hlt.
  destruct (payload_step_pending port cb ic data chunk n Hlt) as (tr & Hbody & Hsig).
  exists tr. split; [|done].
  unfold readyRead, set_rx. cbn -[_on_ready_read passes].
  apply (fuel_mono 2); [|unfold passes; lia].
  rewrite on_ready_read_step by done. rewrite Hbody.
  rewrite on_ready_read_empty by done. by rewrite app_nil_r.
Qed.

(** The payload bytes that complete the payload end the message. *)
Lemma ready_read_last (port : Z) (cb : option nat) (ic : bool)
    (data chunk : bytes) :
  chunk ≠ [] →
  ∃ tr,
    readyRead chunk
      (Build_JsonTcpClient port true [] (Z.of_nat (length chunk)) data cb ic [])
    = Some (frame_outcome port cb ic (data ++ chunk) tr)
    ∧ signals tr = completion cb (data ++ chunk).
Proof.
  intros Hne.
  destruct (payload_completion port cb ic data chunk []) as (tr & Hbody & Hsig & _).
  rewrite app_nil_r in Hbody. exists tr. split; [|done].
  unfold readyRead, set_rx, frame_outcome. cbn -[_on_ready_read passes].
  apply (fuel_mono 2); [|unfold passes; lia].
  rewrite on_ready_read_step by done. rewrite Hbody.
  destruct (decode_envelope _); [done|].
  rewrite on_ready_read_empty by done. by rewrite app_nil_r.
Qed.

(** A payload that arrives in any number of non-empty chunks completes as
    it does in one piece. *)
Lemma payload_in_chunks (chunks : list bytes) (port : Z) (cb : option nat)
    (ic : bool) (data : bytes) :
  chunks ≠ [] → Forall (λ c, c ≠ []) chunks →
  ∃ tr,
    receive chunks
      (Build_JsonTcpClient port true [] (Z.of_nat (length (concat chunks))) data
         cb ic [])
    = Some (frame_outcome port cb ic (data ++ concat chunks) tr)
    ∧ signals tr = completion cb (data ++ concat chunks).
Proof.
  revert data. induction chunks as [|c chunks IH]; intros data Hne Hall; [done|].
  apply Forall_cons in Hall as [Hc Hall].
  destruct chunks as [|c' chunks].
  - cbn [concat]. rewrite app_nil_r.
    destruct (ready_read_last port cb ic data c Hc) as (tr & Hr & Hsig).
    exists tr. split; [|done]. cbn [receive]. rewrite Hr.
    unfold frame_outcome. destruct (decode_envelope _); [done|].
    by rewrite app_nil_r.
  - assert (c' ≠ []) as Hc' by (by apply Forall_cons in Hall as [? _]).
    destruct (ready_read_pending port cb ic data c
                (Z.of_nat (length (concat (c :: c' :: chunks)))) Hc)
      as (t1 & Hr1 & Hsig1).
    { cbn [concat]. rewrite !length_app. destruct c'; [done|]. simpl. lia. }
    destruct (IH (data ++ c) ltac:(done) Hall) as (t2 & Hr2 & Hsig2).
    replace (Z.of_nat (length (concat (c :: c' :: chunks))) - Z.of_nat (length c))
      with (Z.of_nat (length (concat (c' :: chunks)))) in Hr1
      by (cbn [concat]; rewrite !length_app; lia).
    exists (t1 ++ t2). cbn [receive] in *. rewrite Hr1, Hr2.
    replace (data ++ concat (c :: c' :: chunks))
      with ((data ++ c) ++ concat (c' :: chunks))
      by (cbn [concat]; by rewrite <- (assoc_L (++))).
    split; [|by rewrite signals_app, Hsig1, Hsig2].
    unfold frame_outcome. by destruct (decode_envelope _).
Qed.

(** The header arrives alone. *)
Lemma ready_read_header (port t : Z) (cb : option nat) (ic : bool)
    (header : bytes) (n : Z) :
  struct_unpack_I byteorder header = inr n →
  readyRead header (Build_JsonTcpClient port false [] t [] cb ic [])
  = Some (Ok () (Build_JsonTcpClient port true [] n [] cb ic [])
            [Log _logger DEBUG "reading header" [];
             Log _logger DEBUG "header content: %d" [AInt n]]).
Proof.
  intros Hn. destruct (struct_unpack_value _ _ _ Hn) as [Hlen _].
  unfold readyRead, set_rx. cbn -[_on_ready_read passes].
  apply (fuel_mono 2); [|unfold passes; lia].
  rewrite on_ready_read_step by (cbn; by destruct header).
  rewrite <- (app_nil_r header) at 1. rewrite (header_step _ _ _ _ _ _ _ Hn).
  by rewrite on_ready_read_empty.
Qed.

(** The header arrives with the first bytes of the payload: the read goes
    on as a read of these bytes after the header. *)
Lemma ready_read_header_then (port t : Z) (cb : option nat) (ic : bool)
    (header m0 : bytes) (n : Z) r :
  struct_unpack_I byteorder header = inr n →
  readyRead m0 (Build_JsonTcpClient port true [] n [] cb ic []) = Some r →
  readyRead (header ++ m0) (Build_JsonTcpClient port false [] t [] cb ic [])
  = Some match r with
         | Ok _ s1 t1 =>
             Ok () s1 ([Log _logger DEBUG "reading header" [];
                        Log _logger DEBUG "header content: %d" [AInt n]] ++ t1)
         | Raised e s1 t1 =>
             Raised e s1 ([Log _logger DEBUG "reading header" [];
                           Log _logger DEBUG "header content: %d" [AInt n]] ++ t1)
         end.
Proof.
  intros Hn Hr. destruct (struct_unpack_value _ _ _ Hn) as [Hlen _].
  unfold readyRead, set_rx in *. cbn -[_on_ready_read passes] in *.
  apply (fuel_mono (S (passes (Build_JsonTcpClient port true [] n [] cb ic m0)))).
  2:{ unfold passes. cbn [rx]. rewrite length_app. lia. }
  rewrite on_ready_read_step by (cbn; by destruct header).
  rewrite (header_step _ _ _ _ _ _ _ Hn), Hr. by destruct r as [[]|].
Qed.

(** X14.  Chunk boundaries do not matter as long as the first chunk holds
    the whole header: the outcome and the signals are those of the frame
    delivered in one piece. *)
Lemma whole_header_chunks (s : JsonTcpClient) (header msg c0 : bytes)
    (rest : list bytes) :
  awaiting_header s →
  struct_unpack_I byteorder header = inr (Z.of_nat (length msg)) →
  msg ≠ [] →
  Forall (λ c, c ≠ []) (c0 :: rest) →
  concat (c0 :: rest) = header ++ msg →
  (4 ≤ length c0)%nat →
  ∃ tr tr',
    receive (c0 :: rest) s
    = Some (frame_outcome (_port s) (_callback s) (is_connected s) msg tr)
    ∧ readyRead (header ++ msg) s
      = Some (frame_outcome (_port s) (_callback s) (is_connected s) msg tr')
    ∧ signals tr = signals tr'.
Proof.
  intros Hs Hn Hmsg Hall Hcat Hc0. rewrite (awaiting_header_inv s Hs).
  destruct (struct_unpack_value _ _ _ Hn) as [Hlen _].
  destruct (deliver_frame (_port s) (_to_read s) (_callback s) (is_connected s)
              header msg Hn Hmsg) as (tr' & Hwhole & Hsig' & _).
  apply Forall_cons in Hall as [Hne0 Hall].
  cbn [concat] in Hcat.
  assert (c0 = header ++ drop 4 c0 ∧ msg = drop 4 c0 ++ concat rest) as [Hc0eq Hmsgeq].
  { assert (take 4 c0 = header) as Htake.
    { apply (f_equal (take 4)) in Hcat.
      rewrite take_app_le in Hcat by lia.
      by rewrite take_app_length' in Hcat. }
    split; [by rewrite <- Htake, take_drop|].
    apply (f_equal (drop 4)) in Hcat.
    rewrite drop_app_le in Hcat by lia.
    by rewrite drop_app_length' in Hcat. }
  set (m0 := drop 4 c0) in *. rewrite Hc0eq. clearbody m0. clear Hc0eq Hc0.
  destruct (decide (m0 = [])) as [->|Hm0].
  - rewrite app_nil_r. cbn [app] in Hmsgeq. subst msg.
    destruct (payload_in_chunks rest (_port s) (_callback s) (is_connected s) [])
      as (t2 & Hr2 & Hsig2); [by intros ->|done|].
    cbn [app] in Hr2, Hsig2.
    exists ([Log _logger DEBUG "reading header" [];
             Log _logger DEBUG "header content: %d"
               [AInt (Z.of_nat (length (concat rest)))]] ++ t2), tr'.
    split; [|split; [exact Hwhole|]].
    + cbn [receive]. rewrite (ready_read_header _ _ _ _ _ _ Hn), Hr2.
      unfold frame_outcome. by destruct (decode_envelope _).
    + by rewrite signals_app, Hsig2, Hsig'.
  - destruct (payload_in_chunks (m0 :: rest) (_port s) (_callback s)
                (is_connected s) []) as (t2 & Hr2 & Hsig2);
      [done|by apply Forall_cons|].
    cbn [concat app] in Hr2, Hsig2. rewrite <- Hmsgeq in Hr2, Hsig2.
    exists ([Log _logger DEBUG "reading header" [];
             Log _logger DEBUG "header content: %d" [AInt (Z.of_nat (length msg))]]
            ++ t2), tr'.
    split; [|split; [exact Hwhole|]].
    + cbn [receive] in *.
      destruct (readyRead m0 _) as [r1|] eqn:Hr1; [|done].
      rewrite (ready_read_header_then _ _ _ _ _ _ _ _ Hn Hr1).
      unfold frame_outcome in *.
      destruct r1 as [[] s1 t1|e s1 t1].
      * destruct (receive rest s1) as [[[] s2 t3|e s2 t3]|]; [| |done];
          destruct (decode_envelope msg); simplify_eq; try done;
          by rewrite <- (assoc_L (++)).
      * by destruct (decode_envelope msg); simplify_eq.
    + by rewrite signals_app, Hsig2, Hsig'.
Qed.
End Chunks.

Section Overrun.
Context `{!Runtime}.

(** A header read on a socket whose header buffer will not be 4 bytes long
    afterwards only moves bytes into that buffer. *)
Lemma header_step_short (port t : Z) (cb : option nat) (ic : bool)
    (hb data avail : bytes) :
  length (hb ++ take 4 avail) ≠ 4%nat →
  ready_read_body (Build_JsonTcpClient port false hb t data cb ic avail)
  = Ok () (Build_JsonTcpClient port false (hb ++ take 4 avail) t data cb ic
             (drop 4 avail))
      [Log _logger DEBUG "reading header" []].
Proof.
  intros Hlen. unfold ready_read_body. run. cbn -[_read_header].
  rewrite read_header_eq. cbn -[take drop length struct_unpack_I].
  by rewrite bool_decide_false.
Qed.

(** Once the header buffer holds more than 4 bytes, the loop moves all that
    arrives into it and signals nothing. *)
Lemma overrun_drain (n : nat) (port t : Z) (cb : option nat) (ic : bool)
    (hb data avail : bytes) :
  (length avail ≤ n)%nat → (4 < length hb)%nat →
  ∃ tr,
    _on_ready_read (S n) (Build_JsonTcpClient port false hb t data cb ic avail)
    = Some (Ok () (Build_JsonTcpClient port false (hb ++ avail) t data cb ic []) tr)
    ∧ signals tr = [].
Proof.
  revert hb avail. induction n as [|n IH]; intros hb avail Hn Hhb.
  - destruct avail; [|simpl in Hn; lia].
    rewrite on_ready_read_empty by done. rewrite app_nil_r. by eexists.
  - destruct (decide (avail = [])) as [->|Hne].
    { rewrite on_ready_read_empty by done. rewrite app_nil_r. by eexists. }
    rewrite on_ready_read_step by done.
    rewrite header_step_short by (rewrite length_app; lia).
    destruct (IH (hb ++ take 4 avail) (drop 4 avail)) as (tr & -> & Hsig).
    { rewrite length_drop. destruct avail; [done|]. simpl in *. lia. }
    { rewrite length_app. lia. }
    rewrite <- (assoc_L (++)), take_drop. eexists. split; [done|].
    by rewrite signals_app, Hsig.
Qed.

(** X15.  A frame with a payload, cut inside its header and delivered as
    the two pieces, never completes: the second read takes payload bytes
    for header bytes, and the whole stream ends up in the header buffer. *)
Lemma split_inside_header (s : JsonTcpClient) (stream : bytes) (k : nat) :
  awaiting_header s → (0 < k < 4)%nat → (4 < length stream)%nat →
  ∃ s' tr,
    receive [take k stream; drop k stream] s = Some (Ok () s' tr)
    ∧ signals tr = []
    ∧ _header_complete s' = false ∧ _header_buf s' = stream ∧ rx s' = [].
Proof.
  intros Hs Hk Hlen. rewrite (awaiting_header_inv s Hs).
  set (c1 := take k stream). set (c2 := drop k stream).
  assert (length c1 = k) as Hc1 by (unfold c1; rewrite length_take; lia).
  assert (length c2 = (length stream - k)%nat) as Hc2
    by (unfold c2; by rewrite length_drop).
  assert (_on_ready_read (passes (Build_JsonTcpClient (_port s) false [] (_to_read s)
                                    [] (_callback s) (is_connected s) c1))
            (Build_JsonTcpClient (_port s) false [] (_to_read s) []
               (_callback s) (is_connected s) c1)
          = Some (Ok () (Build_JsonTcpClient (_port s) false c1 (_to_read s) []
                           (_callback s) (is_connected s) [])
                    [Log _logger DEBUG "reading header" []])) as H1.
  { apply (fuel_mono 2); [|unfold passes; lia].
    rewrite on_ready_read_step by (cbn; destruct c1; [simpl in Hc1; lia|done]).
    rewrite header_step_short by (cbn [app]; rewrite length_take; lia).
    cbn [app]. rewrite take_ge, drop_ge by lia.
    by rewrite on_ready_read_empty. }
  destruct (overrun_drain (length (drop 4 c2)) (_port s) (_to_read s) (_callback s)
              (is_connected s) (c1 ++ take 4 c2) [] (drop 4 c2)) as (tr2 & H2 & Hsig2).
  { done. }
  { rewrite length_app, length_take. lia. }
  assert (_on_ready_read (passes (Build_JsonTcpClient (_port s) false c1 (_to_read s)
                                    [] (_callback s) (is_connected s) c2))
            (Build_JsonTcpClient (_port s) false c1 (_to_read s) []
               (_callback s) (is_connected s) c2)
          = Some (Ok () (Build_JsonTcpClient (_port s) false stream (_to_read s) []
                           (_callback s) (is_connected s) [])
                    ([Log _logger DEBUG "reading header" []] ++ tr2))) as H3.
  { apply (fuel_mono (S (S (length (drop 4 c2))))).
    2:{ unfold passes. cbn [rx]. rewrite length_drop. lia. }
    rewrite on_ready_read_step by (cbn; destruct c2; [simpl in Hc2; lia|done]).
    rewrite header_step_short by (rewrite length_app, length_take; lia).
    rewrite H2. rewrite <- (assoc_L (++)), take_drop.
    unfold c1, c2. by rewrite take_drop. }
  cbn [receive]. unfold readyRead, set_rx. cbn [rx app _port _header_complete
    _header_buf _to_read _data_buf _callback is_connected].
  rewrite H1. unfold readyRead, set_rx. cbn [rx app _port _header_complete
    _header_buf _to_read _data_buf _callback is_connected].
  rewrite H3. eexists _, _. split; [done|].
  split; [|done]. rewrite app_nil_r.
  change (signals ([Log _logger DEBUG "reading header" [];
                    Log _logger DEBUG "reading header" []] ++ tr2) = []).
  by rewrite signals_app, Hsig2.
Qed.
End Overrun.

(** ** Exchanges *)

Section Exchange.
Context `{!Runtime}.

(** Every call of the payload handler is silent or completes one message. *)
Lemma read_payload_signals (s : JsonTcpClient) :
  let payload := _data_buf s ++ take (Z.to_nat (_to_read s)) (rx s) in
  signals (trace_of (_read_payload s)) = []
  ∨ ∃ status results,
      decode_envelope payload = inr (status, results)
      ∧ signals (trace_of (_read_payload s))
        = match _callback s with
          | Some cb => [Callback cb status results]
          | None => []
          end ++ [Finished].
Proof.
  intros payload.
  set (s1 := set_to_read (_to_read s - Z.of_nat (length (take (Z.to_nat (_to_read s)) (rx s))))
               (set_data_buf payload
                  (set_rx (drop (Z.to_nat (_to_read s)) (rx s)) s))).
  destruct (decide (_to_read s1 ≤ 0)) as [Hle|Hpos].
  - rewrite (read_payload_complete s Hle). fold payload s1.
    unfold decode_envelope. change (_data_buf s1) with payload.
    destruct (bytes_decode payload) as [text|]; [|by left].
    destruct (json_loads text) as [obj|]; [|by left].
    destruct (getitem obj (u "results")) as [e|results]; [by left|].
    destruct (getitem obj (u "status")) as [e|status]; [by left|].
    right. exists status, results. split; [done|].
    cbn [trace_of]. rewrite !signals_app. by destruct (_callback s).
  - left. by rewrite (read_payload_pending s Hpos).
Qed.

Lemma signals_of_app (i : nat) (t1 t2 : list (nat * event)) :
  signals_of i (t1 ++ t2) = signals_of i t1 ++ signals_of i t2.
Proof. unfold signals_of. by rewrite filter_app, fmap_app, signals_app. Qed.

Lemma signals_of_same (i : nat) (tr : trace) :
  signals_of i ((λ e, (i, e)) <$> tr) = signals tr.
Proof.
  unfold signals_of. f_equal.
  induction tr as [|e tr IH]; [done|].
  rewrite fmap_cons, filter_cons_True by done. by rewrite fmap_cons, IH.
Qed.

Lemma signals_of_other (i j : nat) (tr : trace) :
  i ≠ j → signals_of i ((λ e, (j, e)) <$> tr) = [].
Proof.
  intros Hij. unfold signals_of.
  replace (filter (λ p, p.1 = i) ((λ e, (j, e)) <$> tr)) with (@nil (nat * event));
    [done|].
  induction tr as [|e tr IH]; [done|].
  rewrite fmap_cons, filter_cons_False; [done|]. cbn. congruence.
Qed.

(** A response frame reaches one of two sockets that await a header. *)
Lemma deliver_response (i : nat) (c : JsonTcpClient) (socks : list JsonTcpClient)
    (cb : nat) (header msg : bytes) (status results : pyobj) :
  socks !! i = Some c →
  awaiting_header c → _callback c = Some cb →
  struct_unpack_I byteorder header = inr (Z.of_nat (length msg)) →
  msg ≠ [] →
  decode_envelope msg = inr (status, results) →
  ∃ c1 tr,
    deliver i (header ++ msg) socks = Some (<[i := c1]> socks, tr)
    ∧ awaiting_header c1 ∧ _callback c1 = Some cb
    ∧ (∀ j, signals_of j tr
            = if decide (j = i) then [Callback cb status results; Finished] else []).
Proof.
  intros Hi Hc Hcb Hn Hmsg Henv. unfold deliver. rewrite Hi. cbn [mbind option_bind].
  rewrite (awaiting_header_inv c Hc).
  destruct (deliver_frame (_port c) (_to_read c) (_callback c) (is_connected c)
              header msg Hn Hmsg) as (tr & Hr & Hsig & _).
  unfold completion in Hsig. rewrite Henv, Hcb in Hr, Hsig. rewrite Hcb, Hr.
  cbn [mbind option_bind state_of trace_of].
  eexists _, _. split; [done|]. split; [done|]. split; [done|].
  intros j. destruct (decide (j = i)) as [->|Hne].
  - by rewrite signals_of_same.
  - by rewrite signals_of_other.
Qed.
End Exchange.

(** C6.  Every call of the payload handler either signals nothing or
    completes one message, and then the signals are, in this order, one
    call of the socket's callback with the [status] and [results] fields of
    the decoded envelope and [finished].  With two sockets in flight whose
    responses arrive in either order, each socket's callback is called once,
    with the result decoded on that socket, before that socket's
    [finished]. *)
Theorem callback_once_with_own_result `{!Runtime} (s c1 c2 : JsonTcpClient)
    (cb1 cb2 : nat) (h1 m1 h2 m2 : bytes) (st1 res1 st2 res2 : pyobj) :
  awaiting_header c1 → _callback c1 = Some cb1 →
  awaiting_header c2 → _callback c2 = Some cb2 →
  struct_unpack_I byteorder h1 = inr (Z.of_nat (length m1)) → m1 ≠ [] →
  decode_envelope m1 = inr (st1, res1) →
  struct_unpack_I byteorder h2 = inr (Z.of_nat (length m2)) → m2 ≠ [] →
  decode_envelope m2 = inr (st2, res2) →
  (signals (trace_of (_read_payload s)) = []
   ∨ ∃ status results,
       decode_envelope (_data_buf s ++ take (Z.to_nat (_to_read s)) (rx s))
       = inr (status, results)
       ∧ signals (trace_of (_read_payload s))
         = match _callback s with
           | Some cb => [Callback cb status results]
           | None => []
           end ++ [Finished])
  ∧ (∃ socks tr,
       deliveries [(0%nat, h1 ++ m1); (1%nat, h2 ++ m2)] [c1; c2] = Some (socks, tr)
       ∧ signals_of 0 tr = [Callback cb1 st1 res1; Finished]
       ∧ signals_of 1 tr = [Callback cb2 st2 res2; Finished])
  ∧ (∃ socks tr,
       deliveries [(1%nat, h2 ++ m2); (0%nat, h1 ++ m1)] [c1; c2] = Some (socks, tr)
       ∧ signals_of 0 tr = [Callback cb1 st1 res1; Finished]
       ∧ signals_of 1 tr = [Callback cb2 st2 res2; Finished]).
Proof.
  intros Hc1 Hcb1 Hc2 Hcb2 Hn1 Hm1 He1 Hn2 Hm2 He2.
  split; [apply read_payload_signals|]. split.
  - destruct (deliver_response 0 c1 [c1; c2] cb1 h1 m1 st1 res1)
      as (c1' & t1 & Hd1 & Hc1' & Hcb1' & Hs1); try done.
    destruct (deliver_response 1 c2 (<[0%nat := c1']> [c1; c2]) cb2 h2 m2 st2 res2)
      as (c2' & t2 & Hd2 & Hc2' & Hcb2' & Hs2); try done.
    cbn [deliveries]. rewrite Hd1. cbn [mbind option_bind]. rewrite Hd2.
    cbn [mbind option_bind]. eexists _, _. split; [done|].
    rewrite app_nil_r, !signals_of_app, !Hs1, !Hs2. done.
  - destruct (deliver_response 1 c2 [c1; c2] cb2 h2 m2 st2 res2)
      as (c2' & t2 & Hd2 & Hc2' & Hcb2' & Hs2); try done.
    destruct (deliver_response 0 c1 (<[1%nat := c2']> [c1; c2]) cb1 h1 m1 st1 res1)
      as (c1' & t1 & Hd1 & Hc1' & Hcb1' & Hs1); try done.
    cbn [deliveries]. rewrite Hd2. cbn [mbind option_bind]. rewrite Hd1.
    cbn [mbind option_bind]. eexists _, _. split; [done|].
    rewrite app_nil_r, !signals_of_app, !Hs1, !Hs2. done.
Qed.

(** ** The supervisor's output handlers *)

Lemma rfind_from_absent (s : pystr) (c : N) (i last : Z) :
  c ∉ s → rfind_from s c i last = last.
Proof.
  revert i last. induction s as [|x s IH]; intros i last Hc; [done|].
  apply not_elem_of_cons in Hc as [Hx Hs]. cbn [rfind_from].
  rewrite decide_False by done. by apply IH.
Qed.

Lemma rfind_from_last (l tail : pystr) (c : N) (i last : Z) :
  c ∉ tail → rfind_from (l ++ c :: tail) c i last = i + Z.of_nat (length l).
Proof.
  intros Hc. revert i last. induction l as [|x l IH]; intros i last.
  - cbn [app rfind_from length]. rewrite decide_True by done.
    rewrite rfind_from_absent by done. lia.
  - cbn [app rfind_from]. rewrite IH. cbn [length]. lia.
Qed.

(** [output[:output.rfind('\n')]] keeps what precedes the last newline. *)
Lemma cut_at_last_newline (l tail : pystr) :
  10%N ∉ tail →
  slice_to (l ++ 10%N :: tail) (rfind (l ++ 10%N :: tail) 10%N) = l.
Proof.
  intros Hc. unfold rfind. rewrite rfind_from_last by done.
  unfold slice_to. rewrite bool_decide_false by lia.
  rewrite Z.add_0_l, Nat2Z.id. apply take_app_length.
Qed.

(** Without a newline, [rfind] answers [-1] and the cut drops the last
    character. *)
Lemma cut_without_newline (text : pystr) :
  10%N ∉ text →
  slice_to text (rfind text 10%N) = take (length text - 1) text.
Proof.
  intros Hc. unfold rfind. rewrite rfind_from_absent by done.
  unfold slice_to. rewrite bool_decide_true by lia. f_equal. lia.
Qed.

Lemma log_lines_eq (lvl : level) (lines : list pystr) (p : ServerProcess) :
  log_lines lvl lines p = Ok () p (SrvLog lvl <$> lines).
Proof.
  induction lines as [|line lines IH]; [done|].
  cbn [log_lines]. run. by rewrite IH.
Qed.

Lemma logged_lines (lvl : level) (lines : list pystr) :
  logged lvl (SrvLog lvl <$> lines) = lines.
Proof.
  induction lines as [|line lines IH]; [done|].
  cbn [fmap list_fmap logged]. rewrite bool_decide_true by done.
  f_equal. exact IH.
Qed.

Section Drained.
Context `{!Runtime}.

Lemma stdout_ready_eq (chunk : bytes) (p : ServerProcess) :
  readyReadStandardOutput chunk p =
    match bytes_decode (stdout_pending p ++ chunk) with
    | None => Raised UnicodeDecodeError (set_stdout_pending [] p) []
    | Some output =>
        Ok () (set_stdout_pending [] p)
          (SrvLog DEBUG <$> splitlines (slice_to output (rfind output 10%N)))
    end.
Proof.
  unfold readyReadStandardOutput, _on_process_stdout_ready, readAllStandardOutput.
  run. cbn -[slice_to rfind splitlines].
  destruct (bytes_decode _) as [output|]; [|done].
  cbn -[slice_to rfind splitlines]. by rewrite log_lines_eq.
Qed.

(** X16.  What follows the last newline of a chunk of output never
    reaches the log: the lines logged are those of the text before that
    newline, and nothing stays pending. *)
Lemma output_after_last_newline_dropped (chunk : bytes) (l tail : pystr)
    (p : ServerProcess) :
  stdout_pending p = [] →
  bytes_decode chunk = Some (l ++ 10%N :: tail) →
  10%N ∉ tail →
  logged DEBUG (trace_of (readyReadStandardOutput chunk p)) = splitlines l
  ∧ stdout_pending (state_of (readyReadStandardOutput chunk p)) = [].
Proof.
  intros Hp Hdec Hc. rewrite stdout_ready_eq, Hp. cbn [app]. rewrite Hdec.
  rewrite cut_at_last_newline by done. cbn [trace_of state_of].
  by rewrite logged_lines.
Qed.
End Drained.

(** ** Evaluations on concrete messages *)

(** C1, evaluated.  The frame of the echo response delivered in one read
    calls the callback with [(True, 'hi')]; the same bytes delivered as the
    first byte and then the rest call nothing: [read(4)] takes three header
    bytes and one payload byte, the header buffer passes 4 bytes without
    ever being 4 bytes long, and the whole stream ends up in it. *)
Theorem split_header_stalls :
  (∃ s tr,
     @receive ref_runtime [echo_frame] (init 0 (Some 7%nat)) = Some (Ok () s tr)
     ∧ signals tr = [Callback 7 (PyBool true) (PyStr (u "hi")); Finished]
     ∧ awaiting_header s)
  ∧ (∃ s tr,
       @receive ref_runtime [take 1 echo_frame; drop 1 echo_frame]
         (init 0 (Some 7%nat)) = Some (Ok () s tr)
       ∧ signals tr = []
       ∧ _header_complete s = false
       ∧ _header_buf s = echo_frame
       ∧ rx s = []).
Proof.
  split.
  - eexists _, _. split; [vm_compute; reflexivity|]. by vm_compute.
  - eexists _, _. split; [vm_compute; reflexivity|]. by vm_compute.
Qed.

(** C2 fails as stated: after the four bytes of a zero header, and nothing
    else, the handler has returned without the callback and without
    [finished]. *)
Lemma zero_length_counterexample :
  ∃ s tr,
    @readyRead ref_runtime [x00; x00; x00; x00] (init 0 (Some 7%nat))
    = Some (Ok () s tr)
    ∧ signals tr = []
    ∧ _header_complete s = true ∧ _to_read s = 0.
Proof. eexists _, _. split; [vm_compute; reflexivity|]. by vm_compute. Qed.

(** The zero header [00 00 00 00] on a fresh socket, followed by one more
    byte, under the reference runtime. *)
Lemma zero_length_completes_nothing_witness :
  ∃ s1 tr1 s2 tr2,
    @readyRead ref_runtime [x00; x00; x00; x00] (init 0 (Some 7%nat))
    = Some (Ok () s1 tr1)
    ∧ signals tr1 = []
    ∧ _header_complete s1 = true ∧ _to_read s1 = 0 ∧ _data_buf s1 = []
    ∧ rx s1 = []
    ∧ @readyRead ref_runtime [x7b] s1 = Some (Raised ValueError s2 tr2)
    ∧ signals tr2 = []
    ∧ rx s2 = [x7b].
Proof.
  apply (@zero_length_completes_nothing ref_runtime (init 0 (Some 7%nat))
           [x00; x00; x00; x00] [x7b] ValueError).
  - by vm_compute.
  - reflexivity.
  - discriminate.
  - reflexivity.
Defined.

(** The JSON text of a string of [n] letters [a] is [n + 2] bytes long, and
    [send] refuses it once that no longer fits the header. *)
Lemma escape_letters (n : nat) : escape (repeat 97%N n) = repeat 97%N n.
Proof. induction n as [|n IH]; [done|]. cbn [repeat escape]. by rewrite IH. Qed.

Lemma utf8_encode_letters (n : nat) (tail : pystr) (out : bytes) :
  utf8_encode tail = Some out →
  utf8_encode (repeat 97%N n ++ tail) = Some (repeat x61 n ++ out).
Proof.
  intros Htail. induction n as [|n IH]; [done|].
  cbn [repeat app utf8_encode]. by rewrite IH.
Qed.

Lemma send_oversized (n : nat) (s : JsonTcpClient) :
  2 ^ 32 ≤ Z.of_nat n + 2 →
  @send ref_runtime (PyStr (repeat 97%N n)) s
  = Raised StructError s
      [Log _logger DEBUG "sending request: %r" [AObj (PyStr (repeat 97%N n))]].
Proof.
  intros Hn. rewrite send_eq.
  change (@str_encode ref_runtime (@json_dumps ref_runtime (PyStr (repeat 97%N n))))
    with (utf8_encode (34%N :: escape (repeat 97%N n) ++ [34%N])).
  rewrite escape_letters.
  change (utf8_encode (34%N :: repeat 97%N n ++ [34%N]))
    with (match utf8_encode (repeat 97%N n ++ [34%N]) with
          | Some bs => Some (x22 :: bs)
          | None => None
          end).
  rewrite (utf8_encode_letters n [34%N] [x22]) by done.
  rewrite struct_pack_range; [done|].
  rewrite length_cons, length_app, repeat_length. cbn [length]. lia.
Qed.



Lemma utf8_encode_nonempty (s : pystr) (b : bytes) :
  utf8_encode s = Some b → s ≠ [] → b ≠ [].
Proof.
  destruct s as [|c s]; [done|]. intros Hb _. cbn [utf8_encode] in Hb.
  destruct (utf8_encode_char c) as [bc|] eqn:Hc; [|done].
  destruct (utf8_encode s) as [bs|]; [|done]. injection Hb as <-.
  unfold utf8_encode_char in Hc.
  repeat (destruct (_ <? _)%N || destruct (_ && _)); by simplify_eq.
Qed.

Lemma ref_dumps_nonempty (P : pyobj) : ref_dumps P ≠ [].
Proof.
  destruct P as [|[]|z|s|l|d]; try done.
  cbn [ref_dumps]. destruct z as [|p|p]; [done| |done].
  cbn [Z.to_int NilZero.string_of_int NilZero.string_of_uint].
  by destruct (Pos.to_uint p).
Qed.

(** A JSON text is never empty: the lower bound on the length of a payload
    excludes nothing that [json.dumps] writes. *)
Lemma json_text_nonempty (P : pyobj) (msg : bytes) :
  @str_encode ref_runtime (@json_dumps ref_runtime P) = Some msg → msg ≠ [].
Proof.
  intros Hmsg. apply (utf8_encode_nonempty _ _ Hmsg), ref_dumps_nonempty.
Qed.

(** C4 fails as stated: for a payload of [2 ^ 32] bytes [struct.pack]
    raises and [send] writes nothing. *)
Lemma header_overflow_counterexample :
  @send ref_runtime oversized (init 0 None)
  = Raised StructError (init 0 None)
      [Log _logger DEBUG "sending request: %r" [AObj oversized]].
Proof. apply send_oversized. lia. Qed.

(** The echo response: the header spells 33, the length of its JSON text. *)
Lemma header_is_payload_length_witness :
  ∃ header s' tr,
    @send ref_runtime echo_response (init 0 None)
    = Ok () (init 0 None)
        [Log _logger DEBUG "sending request: %r" [AObj echo_response];
         Write header; Write echo_payload]
    ∧ length header = 4%nat
    ∧ @unsigned_value LittleEndian header = Z.of_nat (length echo_payload)
    ∧ @_read_header ref_runtime (set_rx (header ++ [x7b]) (init 0 (Some 7%nat)))
      = Ok () s' tr
    ∧ _header_complete s' = true
    ∧ _to_read s' = Z.of_nat (length echo_payload)
    ∧ _header_buf s' = []
    ∧ rx s' = [x7b].
Proof.
  apply (@header_is_payload_length ref_runtime echo_response echo_payload [x7b]
           (init 0 None) (init 0 (Some 7%nat))).
  - reflexivity.
  - by vm_compute.
  - by vm_compute.
Defined.

(** Two sockets with callbacks 1 and 2; the echo response arrives on the
    first and a failure response on the second, in either order. *)
Lemma callback_once_with_own_result_witness :
  (signals (trace_of (@_read_payload ref_runtime (init 0 (Some 7%nat)))) = []
   ∨ ∃ status results,
       @decode_envelope ref_runtime [] = inr (status, results)
       ∧ signals (trace_of (@_read_payload ref_runtime (init 0 (Some 7%nat))))
         = [Callback 7 status results; Finished])
  ∧ (∃ socks tr,
       @deliveries ref_runtime
         [(0%nat, wire echo_response); (1%nat, wire failure_response)]
         [init 0 (Some 1%nat); init 0 (Some 2%nat)] = Some (socks, tr)
       ∧ signals_of 0 tr = [Callback 1 (PyBool true) (PyStr (u "hi")); Finished]
       ∧ signals_of 1 tr
         = [Callback 2 (PyBool false) (PyList [PyInt 3; PyNone]); Finished])
  ∧ (∃ socks tr,
       @deliveries ref_runtime
         [(1%nat, wire failure_response); (0%nat, wire echo_response)]
         [init 0 (Some 1%nat); init 0 (Some 2%nat)] = Some (socks, tr)
       ∧ signals_of 0 tr = [Callback 1 (PyBool true) (PyStr (u "hi")); Finished]
       ∧ signals_of 1 tr
         = [Callback 2 (PyBool false) (PyList [PyInt 3; PyNone]); Finished]).
Proof.
  apply (@callback_once_with_own_result ref_runtime (init 0 (Some 7%nat))
           (init 0 (Some 1%nat)) (init 0 (Some 2%nat)) 1%nat 2%nat
           (take 4 (wire echo_response)) (drop 4 (wire echo_response))
           (take 4 (wire failure_response)) (drop 4 (wire failure_response))).
  - by vm_compute.
  - reflexivity.
  - by vm_compute.
  - reflexivity.
  - reflexivity.
  - by vm_compute.
  - reflexivity.
  - reflexivity.
  - by vm_compute.
  - reflexivity.
Defined.

(** C7, as the code has it.  When the process exits, the handler logs the
    exit code and clears [running]: the supervisor is no longer running
    after the exit notification.  Nothing else changes; the attributes are
    those [terminate()] leaves.  The process-error handler, told of a crash,
    only logs the message, and only while [running] is set. *)
Theorem exit_clears_running_flag (exit_code : Z) (p : ServerProcess) :
  _on_process_finished exit_code p
  = Ok () (set_running false p)
      [Log _logger INFO "backend process finished with exit code %d" [AInt exit_code]]
  ∧ running (state_of (_on_process_finished exit_code p)) = false
  ∧ starting (state_of (_on_process_finished exit_code p)) = starting p
  ∧ state_of (_on_process_finished exit_code p) = state_of (terminate p)
  ∧ _on_process_error 1 p
    = Ok () p
        (if running p
         then [Log _logger DEBUG
                 "the process crashed some time after starting successfully." []]
         else []).
Proof.
  split_and!; try reflexivity.
  unfold _on_process_error. run. cbn. by destruct (running p).
Qed.

(** C7 fails as stated: after an exit with code 1 the attributes are those
    left by an exit with code 0 and those left by [terminate()], and the
    handlers emitted log records only. *)
Lemma crash_leaves_no_record :
  state_of (_on_process_finished 1 running_process)
  = state_of (terminate running_process)
  ∧ state_of (_on_process_finished 1 running_process)
    = state_of (_on_process_finished 0 running_process)
  ∧ trace_of (_on_process_finished 1 running_process)
    = [Log _logger INFO "backend process finished with exit code %d" [AInt 1]]
  ∧ trace_of (_on_process_error 1 running_process)
    = [Log _logger DEBUG
         "the process crashed some time after starting successfully." []].
Proof. by vm_compute. Qed.

(** C8, evaluated.  Of the output [a], newline, [b] only the line [a]
    reaches the backend logger, and nothing is kept for a later read; of the
    output [abc], which has no newline, only [ab] does.  The same holds for
    the standard-error handler. *)
Theorem partial_line_is_lost :
  logged DEBUG
    (trace_of (@readyReadStandardOutput ref_runtime open_line running_process))
  = [u "a"]
  ∧ stdout_pending
      (state_of (@readyReadStandardOutput ref_runtime open_line running_process))
    = []
  ∧ logged DEBUG
      (trace_of (@readyReadStandardOutput ref_runtime no_newline running_process))
    = [u "ab"]
  ∧ logged ERROR
      (trace_of (@readyReadStandardError ref_runtime open_line running_process))
    = [u "a"]
  ∧ logged ERROR
      (trace_of (@readyReadStandardError ref_runtime no_newline running_process))
    = [u "ab"].
Proof. by vm_compute. Qed.

(** * Further properties *)

(** ** The read handlers: what every read keeps and leaves *)

Ltac read_events :=
  repeat first
    [ apply Forall_nil_2 | apply Forall_cons_2; [exact I|] | apply Forall_app_2 ].

Section ReadInvariants.
Context `{!Runtime}.

Lemma read_header_ok (s : JsonTcpClient) :
  ∃ s' tr, _read_header s = Ok () s' tr.
Proof.
  rewrite read_header_eq. cbn zeta. case_bool_decide as Hlen; [|by eexists _, _].
  destruct (_header_buf s ++ take 4 (rx s)) as [|b0 [|b1 [|b2 [|b3 [|]]]]];
    try done.
  cbn. by eexists _, _.
Qed.

(** What a pass of the loop leaves on a socket with bytes to read. *)
Lemma body_outcome (s : JsonTcpClient) :
  match ready_read_body s with
  | Ok _ s' tr =>
      _port s' = _port s ∧ _callback s' = _callback s
      ∧ is_connected s' = is_connected s ∧ Forall read_event tr
      ∧ (consistent s → consistent s')
  | Raised e s' tr =>
      _port s' = _port s ∧ _callback s' = _callback s
      ∧ is_connected s' = is_connected s ∧ Forall read_event tr
      ∧ (consistent s → consistent s')
      ∧ _header_complete s' = true ∧ _to_read s' ≤ 0
      ∧ rx s' = drop (Z.to_nat (_to_read s)) (rx s)
  end.
Proof.
  unfold ready_read_body. run. cbn -[_read_header _read_payload].
  destruct (_header_complete s) eqn:Hc; cbn -[_read_header _read_payload].
  - set (data_read := take (Z.to_nat (_to_read s)) (rx s)).
    set (s1 := set_to_read (_to_read s - Z.of_nat (length data_read))
                 (set_data_buf (_data_buf s ++ data_read)
                    (set_rx (drop (Z.to_nat (_to_read s)) (rx s)) s))).
    assert (consistent s → consistent s1) as Hcons1.
    { intros (Hr & Hb & Hd). unfold consistent, s1. cbn.
      rewrite Hc in *. split_and!; [|lia|exact Hb|done].
      unfold data_read. rewrite length_take. lia. }
    destruct (decide (_to_read s1 ≤ 0)) as [Hle|Hpos].
    + rewrite (read_payload_complete s Hle). fold data_read s1.
      destruct (bytes_decode _) as [data|];
        [|cbn; split_and!; try done; read_events].
      destruct (json_loads data) as [obj|];
        [|cbn; split_and!; try done; read_events].
      destruct (getitem obj (u "results")) as [e|results];
        [cbn; split_and!; try done; read_events|].
      destruct (getitem obj (u "status")) as [e|status];
        [cbn; split_and!; try done; read_events|].
      cbn. split_and!; try done.
      * destruct (_callback s); read_events.
      * intros Hs. destruct (Hcons1 Hs) as (Hr & _ & _).
        unfold consistent. unfold s1 in Hr, Hle. cbn in Hr, Hle |- *.
        split_and!; [lia|lia|done|done].
    + rewrite (read_payload_pending s Hpos). fold data_read s1.
      split_and!; try done. read_events.
  - rewrite read_header_eq. cbn zeta.
    case_bool_decide as Hlen.
    + destruct (struct_unpack_I _ _) as [e|n] eqn:Hn.
      { destruct (_header_buf s ++ take 4 (rx s)) as [|b0 [|b1 [|b2 [|b3 [|]]]]];
          done. }
      cbn. split_and!; try done.
      * read_events.
      * intros (Hr & Hb & Hd). unfold consistent. cbn.
        split_and!; [| |done|done].
        -- destruct (_header_buf s ++ take 4 (rx s)) as [|b0 [|b1 [|b2 [|b3 [|]]]]];
             try done.
           injection Hn as <-.
           destruct byteorder; rewrite le_value_unsigned; cbn;
             pose proof (Z_of_byte_range b0); pose proof (Z_of_byte_range b1);
             pose proof (Z_of_byte_range b2); pose proof (Z_of_byte_range b3); lia.
        -- destruct (_header_buf s ++ take 4 (rx s)) as [|b0 [|b1 [|b2 [|b3 [|]]]]];
             try done.
           injection Hn as <-.
           destruct byteorder; rewrite le_value_unsigned; cbn;
             pose proof (Z_of_byte_range b0); pose proof (Z_of_byte_range b1);
             pose proof (Z_of_byte_range b2); pose proof (Z_of_byte_range b3); lia.
    + cbn. split_and!; try done.
      * read_events.
      * intros (Hr & Hb & Hd). unfold consistent. cbn.
        split_and!; [lia|lia|by rewrite Hc|by intros; apply Hd].
Qed.

Lemma loop_outcome (fuel : nat) (s : JsonTcpClient) r :
  _on_ready_read fuel s = Some r →
  _port (state_of r) = _port s ∧ _callback (state_of r) = _callback s
  ∧ is_connected (state_of r) = is_connected s
  ∧ Forall read_event (trace_of r)
  ∧ (consistent s → consistent (state_of r))
  ∧ match r with
    | Ok _ s' _ => rx s' = []
    | Raised _ s' _ => _header_complete s' = true ∧ _to_read s' ≤ 0
    end.
Proof.
  revert s r. induction fuel as [|fuel IH]; intros s r; [done|].
  destruct (decide (rx s = [])) as [Hrx|Hrx].
  { rewrite on_ready_read_empty by done. intros [= <-]. cbn.
    split_and!; try done. }
  rewrite on_ready_read_step by done.
  pose proof (body_outcome s) as Hbody.
  destruct (ready_read_body s) as [[] s1 t1|e s1 t1].
  - destruct Hbody as (Hp & Hcb & Hic & Htr & Hcons).
    destruct (_on_ready_read fuel s1) as [r1|] eqn:Hr1; [|done].
    destruct (IH s1 r1 Hr1) as (Hp1 & Hcb1 & Hic1 & Htr1 & Hcons1 & Hend).
    destruct r1 as [[] s2 t2|e s2 t2]; intros [= <-]; cbn in *;
      (split_and!;
       first [congruence|by apply Forall_app|tauto|done|by destruct Hend]).
  - destruct Hbody as (Hp & Hcb & Hic & Htr & Hcons & Hc & Hle & _).
    intros [= <-]. cbn. split_and!; done.
Qed.

Lemma ready_read_total (chunk : bytes) (s : JsonTcpClient) :
  ∃ r, readyRead chunk s = Some r.
Proof.
  unfold readyRead. cbn zeta.
  destruct (drain_total (passes (set_rx (rx s ++ chunk) s))
              (set_rx (rx s ++ chunk) s)) as [r Hr].
  { unfold measure, passes. destruct (_header_complete _); lia. }
  exists r. by apply Hr.
Qed.

(** X1.  A read event always ends, in one of two ways: the handler returns
    and has taken every byte out of the receive buffer, or it raises, and
    then it is the payload handler that raised, on a payload whose last
    byte had arrived. *)
Theorem read_drains_or_raises_at_payload_end (chunk : bytes) (s : JsonTcpClient) :
  ∃ r,
    readyRead chunk s = Some r
    ∧ match r with
      | Ok _ s' _ => rx s' = []
      | Raised _ s' _ => _header_complete s' = true ∧ _to_read s' ≤ 0
      end.
Proof.
  destruct (ready_read_total chunk s) as [r Hr]. exists r. split; [done|].
  unfold readyRead in Hr. by apply loop_outcome in Hr as (_ & _ & _ & _ & _ & ?).
Qed.

(** X2.  Reading never touches the rest of the socket: whatever arrives,
    the port, the callback and the connected flag are as before, and the
    only things the handler does besides logging are calling the callback
    and emitting [finished] -- it writes nothing to the socket, opens no
    connection and arms no timer. *)
Theorem read_only_reads (chunk : bytes) (s : JsonTcpClient) :
  ∃ r,
    readyRead chunk s = Some r
    ∧ _port (state_of r) = _port s
    ∧ _callback (state_of r) = _callback s
    ∧ is_connected (state_of r) = is_connected s
    ∧ Forall read_event (trace_of r).
Proof.
  destruct (ready_read_total chunk s) as [r Hr]. exists r. split; [done|].
  unfold readyRead in Hr.
  apply loop_outcome in Hr as (Hp & Hcb & Hic & Htr & _ & _). done.
Qed.

(** X3.  The read handlers keep the attributes consistent over any number
    of reads, whatever the bytes: the count of bytes still to read stays
    within [0, 2 ^ 32), no header byte is held while a payload is awaited,
    and no payload byte is held while a header is awaited -- also when a
    handler raises. *)
Theorem reads_keep_consistent (chunks : list bytes) (s : JsonTcpClient) :
  consistent s →
  ∃ r, receive chunks s = Some r ∧ consistent (state_of r).
Proof.
  revert s. induction chunks as [|chunk chunks IH]; intros s Hs.
  { eexists. split; [done|]. done. }
  destruct (ready_read_total chunk s) as [r Hr].
  assert (consistent (state_of r)) as Hr'.
  { unfold readyRead in Hr.
    apply loop_outcome in Hr as (_ & _ & _ & _ & Hcons & _).
    apply Hcons. destruct Hs as (? & ? & ?). done. }
  cbn [receive]. rewrite Hr. destruct r as [[] s1 t1|e s1 t1].
  - destruct (IH s1 Hr') as (r2 & -> & Hr2).
    destruct r2 as [[] s2 t2|e s2 t2]; by eexists.
  - by eexists.
Qed.

End ReadInvariants.

(** ** More than one frame, and frames that do not decode *)

Section Streams.
Context `{!Runtime}.

(** X4.  One read that holds two whole frames handles both, in order: the
    callback gets the first response and then the second, each followed by
    [finished].  If the first payload does not decode, the handler raises
    at it, and the second frame stays unread in the receive buffer. *)
Theorem two_frames_in_one_read (s : JsonTcpClient) (h1 m1 h2 m2 : bytes) :
  awaiting_header s →
  struct_unpack_I byteorder h1 = inr (Z.of_nat (length m1)) → m1 ≠ [] →
  struct_unpack_I byteorder h2 = inr (Z.of_nat (length m2)) → m2 ≠ [] →
  ∃ tr,
    readyRead (h1 ++ m1 ++ h2 ++ m2) s
    = Some match decode_envelope m1 with
           | inr _ =>
               frame_outcome (_port s) (_callback s) (is_connected s) m2 tr
           | inl e =>
               Raised e
                 (Build_JsonTcpClient (_port s) true [] 0 m1 (_callback s)
                    (is_connected s) (h2 ++ m2)) tr
           end
    ∧ signals tr
      = match decode_envelope m1 with
        | inr _ => completion (_callback s) m1 ++ completion (_callback s) m2
        | inl _ => []
        end.
Proof.
  intros Hs Hn1 Hm1 Hn2 Hm2. rewrite (awaiting_header_inv s Hs).
  destruct (struct_unpack_value _ _ _ Hn1) as [Hlen1 _].
  destruct (payload_completion (_port s) (_callback s) (is_connected s) [] m1
              (h2 ++ m2)) as (t1 & Hbody & Hsig1 & _).
  destruct (deliver_frame (_port s) 0 (_callback s) (is_connected s) h2 m2
              Hn2 Hm2) as (t2 & Hr2 & Hsig2 & _).
  unfold readyRead, set_rx in Hr2 |- *.
  cbn -[_on_ready_read passes] in Hr2 |- *. cbn [app] in Hbody, Hsig1.
  unfold completion in Hsig1 |- *. unfold frame_outcome.
  destruct (decode_envelope m1) as [e|[status1 results1]].
  - exists ([Log _logger DEBUG "reading header" [];
             Log _logger DEBUG "header content: %d" [AInt (Z.of_nat (length m1))]]
            ++ t1).
    split; [|by rewrite signals_app, Hsig1].
    apply (fuel_mono 2); [|unfold passes; lia].
    rewrite on_ready_read_step by (cbn; by destruct h1).
    rewrite (header_step _ _ _ _ _ _ _ Hn1).
    rewrite on_ready_read_step by (cbn; by destruct m1).
    by rewrite Hbody.
  - exists ([Log _logger DEBUG "reading header" [];
             Log _logger DEBUG "header content: %d" [AInt (Z.of_nat (length m1))]]
            ++ t1 ++ t2).
    split; [|by rewrite !signals_app, Hsig1, Hsig2].
    apply (fuel_mono (S (S (passes (Build_JsonTcpClient (_port s) false [] 0 []
                                     (_callback s) (is_connected s) (h2 ++ m2)))))).
    2:{ unfold passes. cbn [rx]. rewrite !length_app. destruct m1; [done|].
        cbn [length]. lia. }
    rewrite on_ready_read_step by (cbn; by destruct h1).
    rewrite (header_step _ _ _ _ _ _ _ Hn1).
    rewrite on_ready_read_step by (cbn; by destruct m1).
    rewrite Hbody, Hr2.
    destruct (decode_envelope m2) as [e2|[status2 results2]]; done.
Qed.

(** X5.  A payload that does not decode wedges the socket: it stays in the
    payload state with the bad payload buffered, so every later read raises
    the same exception again before it takes a single byte, signals
    nothing, and only piles what arrives onto the receive buffer. *)
Theorem undecodable_payload_wedges (s : JsonTcpClient) (chunk : bytes) (e : exn) :
  _header_complete s = true → _to_read s = 0 →
  decode_envelope (_data_buf s) = inl e →
  rx s ++ chunk ≠ [] →
  ∃ tr,
    readyRead chunk s = Some (Raised e (set_rx (rx s ++ chunk) s) tr)
    ∧ signals tr = [].
Proof.
  intros Hc Ht He Hne. destruct s as [port hc hb t data cb ic avail].
  cbn in Hc, Ht, He, Hne. subst hc t.
  pose proof (read_payload_complete
                (Build_JsonTcpClient port true hb 0 data cb ic (avail ++ chunk)))
    as Hp.
  cbn -[getitem u] in Hp. rewrite app_nil_r in Hp. specialize (Hp ltac:(lia)).
  assert (∀ r : result JsonTcpClient unit,
            _read_payload
              (Build_JsonTcpClient port true hb 0 data cb ic (avail ++ chunk)) = r →
            r = Raised e (Build_JsonTcpClient port true hb 0 data cb ic
                            (avail ++ chunk)) (trace_of r)
            ∧ signals (trace_of r) = []) as Hraise.
  { intros r <-. rewrite Hp. unfold decode_envelope in He.
    destruct (bytes_decode data) as [text|]; [|by injection He as <-].
    destruct (json_loads text) as [obj|]; [|by injection He as <-].
    destruct (getitem obj (u "results")) as [e1|results]; [by injection He as <-|].
    destruct (getitem obj (u "status")) as [e1|status]; [by injection He as <-|done]. }
  destruct (Hraise _ eq_refl) as [Hr Hsig].
  eexists. split; [|exact Hsig].
  unfold readyRead, set_rx. cbn -[_on_ready_read passes].
  apply (fuel_mono 1); [|unfold passes; lia].
  rewrite on_ready_read_step by done.
  unfold ready_read_body. run. cbn -[_read_payload].
  rewrite Hr. done.
Qed.
End Streams.

(** ** Connecting: retries and the request *)

Lemma on_error_eq (error : Z) (s : JsonTcpClient) :
  ∃ msg,
    _on_error error s
    = Ok () s (Log _logger DEBUG msg []
               :: if bool_decide (error = 0) then [SingleShot 100 Slot_connect]
                  else []).
Proof.
  destruct (socket_key_found error) as [msg Hmsg].
  exists msg. unfold _on_error, table_getitem.
  unfold contains in *. case_bool_decide as Hin; simpl in *; rewrite Hmsg; run; simpl.
  - by case_bool_decide.
  - rewrite (bool_decide_false (error = 0)); [done|].
    intros ->. apply Hin. by eexists.
Qed.

Lemma connects_app (t1 t2 : trace) :
  connects (t1 ++ t2) = connects t1 ++ connects t2.
Proof.
  induction t1 as [|e t1 IH]; [done|]. destruct e; cbn [app connects]; try done.
  by rewrite IH.
Qed.

Lemma error_event_eq (error : Z) (s : JsonTcpClient) :
  ∃ tr,
    error_event error s = (s, tr)
    ∧ connects tr
      = if bool_decide (error = 0) then [("127.0.0.1"%string, _port s)] else [].
Proof.
  unfold error_event. destruct (on_error_eq error s) as [msg ->].
  cbn [trace_of state_of]. case_bool_decide; cbn; by eexists.
Qed.

(** X6.  Refusals are retried without end.  Over any sequence of socket
    errors, with the event loop firing the timers that the error handler
    armed, there is one more attempt to connect for every refusal (error
    0) and none for any other error, always to [127.0.0.1] and the same
    port, and the socket's attributes are never changed: no count of
    attempts is kept and nothing gives up, so that [n] refusals in a row
    are answered by [n] attempts, whatever [n]. *)
Theorem refusals_retry_without_end (errors : list Z) (n : nat) (s : JsonTcpClient) :
  (socket_errors errors s).1 = s
  ∧ connects (socket_errors errors s).2
    = repeat ("127.0.0.1"%string, _port s)
        (length (filter (λ error, error = 0) errors))
  ∧ connects (socket_errors (repeat 0 n) s).2
    = repeat ("127.0.0.1"%string, _port s) n.
Proof.
  assert (∀ errors,
            (socket_errors errors s).1 = s
            ∧ connects (socket_errors errors s).2
              = repeat ("127.0.0.1"%string, _port s)
                  (length (filter (λ error, error = 0) errors))) as Hgen.
  { clear errors. intros errors. induction errors as [|error errors [IH1 IH2]];
      [done|].
    cbn [socket_errors]. destruct (error_event_eq error s) as (t1 & -> & Hc1).
    destruct (socket_errors errors s) as [s2 t2]. cbn [fst snd] in IH1, IH2 |- *.
    split; [done|]. rewrite connects_app, Hc1, IH2, filter_cons.
    by case_bool_decide; case_decide. }
  split_and!; [apply Hgen..|].
  destruct (Hgen (repeat 0 n)) as [_ ->]. f_equal.
  induction n as [|n IH]; [done|]. cbn [repeat]. rewrite filter_cons_True by done.
  cbn [length]. by rewrite IH.
Qed.

Section RequestFacts.
Context `{!Runtime}.

(** X7.  When the socket connects, the client marks itself connected,
    remembers the request id it drew, and writes exactly one frame: the
    4-byte header that spells the length of the payload, then the JSON
    text of an object whose [request_id] is that id, whose [worker] is the
    worker's module and name joined by a dot and whose [data] are the
    arguments.  The read state of the socket is not touched. *)
Theorem connected_sends_request (c : Client) (peerName : pystr)
    (peerPort : Z) (uuid4 : pystr) (msg : bytes) :
  let request :=
    PyDict [(u "request_id", PyStr uuid4);
            (u "worker", PyStr ((_worker c).1 ++ u "." ++ (_worker c).2));
            (u "data", _args c)] in
  str_encode (json_dumps request) = Some msg →
  Z.of_nat (length msg) < 2 ^ 32 →
  ∃ header c' tr,
    _on_connected peerName peerPort uuid4 c = Ok () c' tr
    ∧ written tr = header ++ msg
    ∧ struct_unpack_I byteorder header = inr (Z.of_nat (length msg))
    ∧ socket c' = set_is_connected true (socket c)
    ∧ request_id c' = Some uuid4
    ∧ _worker c' = _worker c ∧ _args c' = _args c
    ∧ getitem request (u "request_id") = inr (PyStr uuid4)
    ∧ getitem request (u "worker")
      = inr (PyStr ((_worker c).1 ++ u "." ++ (_worker c).2))
    ∧ getitem request (u "data") = inr (_args c).
Proof.
  intros request Hmsg Hlen.
  destruct (struct_pack_unpack byteorder (Z.of_nat (length msg)) ltac:(lia))
    as (header & Hpack & _ & Hunpack).
  exists header. unfold _on_connected, _send_request, on_socket. run.
  cbn -[send u]. fold request. rewrite send_eq, Hmsg, Hpack.
  eexists _, _. split; [done|]. cbn [written app]. rewrite app_nil_r.
  split_and!; done.
Qed.
End RequestFacts.

(** ** The supervisor *)

Lemma process_error_known (code : Z) :
  0 ≤ code ≤ 5 → is_Some (PROCESS_ERROR_STRING !! code).
Proof.
  intros Hc.
  assert (code = 0 ∨ code = 1 ∨ code = 2 ∨ code = 3 ∨ code = 4 ∨ code = 5)
    as [->|[->|[->|[->|[->| ->]]]]] by lia; by eexists.
Qed.

Lemma process_error_unknown (code : Z) :
  ¬ (0 ≤ code ≤ 5) → PROCESS_ERROR_STRING !! code = None.
Proof.
  intros Hc. unfold PROCESS_ERROR_STRING.
  apply not_elem_of_list_to_map_1. cbn [fmap list_fmap fst].
  rewrite !elem_of_cons, elem_of_nil. lia.
Qed.

(** X8.  The process-error handler has no entry for the codes it does not
    know: it replaces such a code by [-1], which [PROCESS_ERROR_STRING]
    does not contain, so that while the process is running the lookup
    raises [KeyError(-1)].  For the codes 0 to 5 it logs their message
    while the process is running; when it is not running it does nothing,
    whatever the code. *)
Theorem process_error_unknown_code_raises (code : Z) (p : ServerProcess) :
  ∃ msg,
    (0 ≤ code ≤ 5 → PROCESS_ERROR_STRING !! code = Some msg)
    ∧ _on_process_error code p
      = if running p then
          if bool_decide (0 ≤ code ≤ 5) then Ok () p [Log _logger DEBUG msg []]
          else Raised (KeyError (PyInt (-1))) p []
        else Ok () p [].
Proof.
  unfold _on_process_error, contains, table_getitem. run.
  destruct (decide (0 ≤ code ≤ 5)) as [Hc|Hc].
  - destruct (process_error_known code Hc) as [msg Hmsg]. exists msg.
    split; [done|]. rewrite (bool_decide_true (0 ≤ code ≤ 5)) by done.
    rewrite bool_decide_true by by eexists.
    simpl. rewrite Hmsg. by destruct (running p).
  - exists EmptyString. split; [done|].
    rewrite (bool_decide_false (0 ≤ code ≤ 5)) by done.
    rewrite bool_decide_false
      by (rewrite process_error_unknown by done; by intros [? ?]).
    simpl. by destruct (running p).
Qed.

Section SupervisorFacts.
Context `{!Runtime}.

Lemma stderr_ready_eq (chunk : bytes) (p : ServerProcess) :
  readyReadStandardError chunk p =
    match bytes_decode (stderr_pending p ++ chunk) with
    | None => Raised UnicodeDecodeError (set_stderr_pending [] p) []
    | Some output =>
        Ok () (set_stderr_pending [] p)
          (SrvLog ERROR <$> splitlines (slice_to output (rfind output 10%N)))
    end.
Proof.
  unfold readyReadStandardError, _on_process_stderr_ready, readAllStandardError.
  run. cbn -[slice_to rfind splitlines].
  destruct (bytes_decode _) as [output|]; [|done].
  cbn -[slice_to rfind splitlines]. by rewrite log_lines_eq.
Qed.

(** The flags after one slot. *)
Lemma slot_flags (sig : process_signal) (p : ServerProcess) :
  starting (state_of (slot_of sig p))
  = (if is_started sig then false else starting p)
  ∧ running (state_of (slot_of sig p))
    = match sig with
      | sig_started => true
      | sig_finished _ | call_terminate => false
      | _ => running p
      end
  ∧ _test_not_deleted (state_of (slot_of sig p)) = _test_not_deleted p.
Proof.
  destruct sig as [|code|exit_code|chunk|chunk|]; cbn [slot_of is_started];
    try done.
  - unfold _on_process_error. run. simpl.
    destruct (running p) eqn:Hr; [destruct (table_getitem _ _)|];
      simpl; rewrite ?Hr; done.
  - rewrite stdout_ready_eq. by destruct (bytes_decode _).
  - rewrite stderr_ready_eq. by destruct (bytes_decode _).
Qed.

(** X9.  Over any sequence of process signals, output chunks and calls of
    [terminate()], a supervisor fresh from [__init__] is never both
    starting and running: [starting] is set until the first [started]
    signal and never again, [running] is set only by [started], and a
    [finished] signal or [terminate()] as the last event leaves it
    cleared. *)
Theorem supervisor_never_starting_and_running (sigs : list process_signal)
    (final : process_signal) :
  starting (after_signals sigs init_process) = negb (existsb is_started sigs)
  ∧ (running (after_signals sigs init_process) = true
     → starting (after_signals sigs init_process) = false)
  ∧ running (after_signals (sigs ++ [final]) init_process)
    = match final with
      | sig_started => true
      | sig_finished _ | call_terminate => false
      | _ => running (after_signals sigs init_process)
      end.
Proof.
  assert (∀ sigs p,
            starting (after_signals sigs p)
            = starting p && negb (existsb is_started sigs)) as Hstart.
  { intros l. induction l as [|sig l IH]; intros p; cbn [after_signals existsb].
    - by rewrite andb_true_r.
    - rewrite IH. destruct (slot_flags sig p) as (-> & _ & _).
      destruct (is_started sig), (starting p); done. }
  assert (∀ sigs p,
            (running p = true → starting p = false) →
            running (after_signals sigs p) = true →
            starting (after_signals sigs p) = false) as Hinv.
  { intros l. induction l as [|sig l IH]; intros p Hp; [done|].
    cbn [after_signals]. apply IH.
    destruct (slot_flags sig p) as (-> & -> & _).
    destruct sig; cbn [is_started]; try done. }
  assert (∀ sigs p,
            after_signals (sigs ++ [final]) p
            = state_of (slot_of final (after_signals sigs p))) as Hlast.
  { intros l. induction l as [|sig l IH]; intros p; [done|]. apply IH. }
  split_and!.
  - by rewrite Hstart.
  - by apply Hinv.
  - rewrite Hlast. by destruct (slot_flags final (after_signals sigs init_process))
      as (_ & -> & _).
Qed.

Lemma splitlines_newline_end (n : nat) (body cur : pystr) (c : N) :
  (length body ≤ n)%nat → is_linebreak c = false →
  splitlines_from (body ++ [c; 10%N]) cur = splitlines_from (body ++ [c]) cur.
Proof.
  intros Hn Hc. revert body cur Hn.
  induction n as [|n IH]; intros body cur Hn.
  - destruct body; [|simpl in Hn; lia].
    cbn [app splitlines_from]. rewrite Hc.
    change (is_linebreak 10%N) with true. cbn iota.
    by destruct cur.
  - destruct body as [|x body].
    { apply (IH [] cur). simpl. lia. }
    cbn [app splitlines_from]. simpl in Hn.
    destruct (is_linebreak x).
    + destruct body as [|y body].
      * cbn [app].
        assert (c ≠ 10%N) as Hne by (intros ->; done).
        rewrite !bool_decide_false by (intros [_ ?]; done).
        f_equal. apply (IH [] []). simpl. lia.
      * cbn [app]. case_bool_decide.
        -- f_equal. apply IH. simpl in Hn. lia.
        -- f_equal. apply (IH (y :: body)). simpl in *. lia.
    + apply IH. lia.
Qed.

(** X10.  Output that ends with a newline after a non-empty last line is
    logged completely: the lines that reach the backend logger are exactly
    the lines of the decoded text, at debug level for standard output and
    at error level for standard error. *)
Theorem complete_lines_are_logged (chunk : bytes) (body : pystr) (c : N)
    (p : ServerProcess) :
  stdout_pending p = [] → stderr_pending p = [] →
  bytes_decode chunk = Some (body ++ [c; 10%N]) →
  is_linebreak c = false →
  logged DEBUG (trace_of (readyReadStandardOutput chunk p))
  = splitlines (body ++ [c; 10%N])
  ∧ logged ERROR (trace_of (readyReadStandardError chunk p))
    = splitlines (body ++ [c; 10%N]).
Proof.
  intros Hout Herr Hdec Hc.
  rewrite stdout_ready_eq, stderr_ready_eq, Hout, Herr. cbn [app]. rewrite Hdec.
  replace (body ++ [c; 10%N]) with ((body ++ [c]) ++ 10%N :: [])
    by by rewrite <- (assoc_L (++)).
  rewrite cut_at_last_newline by apply not_elem_of_nil.
  cbn [trace_of]. rewrite !logged_lines.
  rewrite <- (assoc_L (++)). cbn [app]. unfold splitlines.
  by rewrite (splitlines_newline_end (length body)).
Qed.

(** X17.  Output that does not decode is thrown away: when the bytes read
    from standard output are not valid UTF-8 -- a chunk that ends inside a
    character, say -- the handler raises [UnicodeDecodeError], logs
    nothing, and has already taken the bytes from the process, so that the
    next chunk is decoded on its own, without them. *)
Theorem undecodable_output_is_discarded (chunk1 chunk2 : bytes)
    (p : ServerProcess) :
  stdout_pending p = [] → bytes_decode chunk1 = None →
  readyReadStandardOutput chunk1 p = Raised UnicodeDecodeError p []
  ∧ readyReadStandardOutput chunk2 (state_of (readyReadStandardOutput chunk1 p))
    = readyReadStandardOutput chunk2 p.
Proof.
  intros Hp Hdec.
  assert (readyReadStandardOutput chunk1 p = Raised UnicodeDecodeError p [])
    as Hr.
  { rewrite stdout_ready_eq, Hp. cbn [app]. rewrite Hdec.
    destruct p. cbn in Hp. by subst. }
  split; [done|]. by rewrite Hr.
Qed.
End SupervisorFacts.

(** ** pcef: opening and saving a file *)

Lemma str_replace_absent (s : pystr) (old : N) (new : pystr) :
  old ∉ new → old ∉ str_replace s old new.
Proof.
  intros Hnew. induction s as [|c s IH]; [apply not_elem_of_nil|].
  cbn [str_replace]. rewrite elem_of_app. intros [Hc|Hs]; [|done].
  destruct (decide (c = old)) as [->|Hne]; [done|].
  apply list_elem_of_singleton in Hc. congruence.
Qed.

Lemma str_replace_length (s : pystr) (old : N) (new : pystr) :
  Z.of_nat (length (str_replace s old new))
  = Z.of_nat (length s) + (Z.of_nat (length new) - 1) * str_count s old.
Proof.
  induction s as [|c s IH]; [cbn; lia|].
  cbn [str_replace str_count]. rewrite length_app.
  destruct (decide (c = old)); cbn [length]; lia.
Qed.

Lemma str_replace_none (s : pystr) (old : N) (new : pystr) :
  old ∉ s → str_replace s old new = s.
Proof.
  induction s as [|c s IH]; [done|]. intros Hs.
  apply not_elem_of_cons in Hs as [Hc Hs]. cbn [str_replace].
  rewrite decide_False by done. cbn [app]. by rewrite IH.
Qed.

Section PcefFacts.
Variable encode : pystr → option bytes.
Variable decode : bytes → option pystr.

(** X11.  A file opened with tab replacement is shown without a single tab
    character, whatever [TAB_SIZE] is: each tab of the decoded text became
    [TAB_SIZE] spaces (none when [TAB_SIZE] is zero or negative), so the
    text shown is longer by [TAB_SIZE - 1] characters per tab, and a text
    without tabs is shown as it is. *)
Theorem opened_text_has_no_tab (files : gmap string bytes) (TAB_SIZE : Z)
    (filename : string) (data : bytes) (text : pystr) :
  files !! filename = Some data → decode data = Some text →
  ∃ shown,
    openFileInEditor decode files TAB_SIZE filename true
    = inr [textEdit_filename filename; setLexerFromFilename filename;
           setPlainText shown; ui_textEdit_dirty false;
           logger_info "File opened: {0}" filename]
    ∧ (9%N ∉ shown)
    ∧ Z.of_nat (length shown)
      = Z.of_nat (length text) + (Z.max 0 TAB_SIZE - 1) * str_count text 9%N
    ∧ (9%N ∉ text → shown = text).
Proof.
  intros Hfile Hdec. unfold openFileInEditor. rewrite Hfile, Hdec.
  eexists. split; [done|]. split_and!.
  - apply str_replace_absent. intros Hin%list_elem_of_In%repeat_spec. done.
  - rewrite str_replace_length, repeat_length. lia.
  - apply str_replace_none.
Qed.

(** X12.  Saving and opening again gives the text back: after a save whose
    text the codec can encode and read back, the file holds the encoded
    text, every other file is as it was, and opening the file without tab
    replacement shows exactly the saved text. *)
Theorem save_then_open (files : gmap string bytes) (TAB_SIZE : Z)
    (filename : string) (plain_text : pystr) (data : bytes) :
  encode plain_text = Some data → decode data = Some plain_text →
  ∃ files',
    saveFileFromEditor encode files plain_text filename
    = (None, files',
       [textEdit_dirty false; editor_filename filename;
        logger_info "File saved: {0}" filename])
    ∧ files' !! filename = Some data
    ∧ (∀ other, other ≠ filename → files' !! other = files !! other)
    ∧ openFileInEditor decode files' TAB_SIZE filename false
      = inr [textEdit_filename filename; setLexerFromFilename filename;
             setPlainText plain_text; ui_textEdit_dirty false;
             logger_info "File opened: {0}" filename].
Proof.
  intros Henc Hdec. unfold saveFileFromEditor, openFileInEditor. rewrite Henc.
  eexists. split; [done|]. split_and!.
  - by rewrite lookup_insert_eq.
  - intros other Hne. by rewrite !lookup_insert_ne.
  - by rewrite lookup_insert_eq, Hdec.
Qed.

(** X13.  A save whose text the codec cannot encode destroys the file: the
    file is opened for writing before the text is encoded, so it is left
    empty whatever it held, the editor is not told anything, and opening
    the file afterwards shows what the empty file decodes to. *)
Theorem failed_save_empties_file (files : gmap string bytes) (TAB_SIZE : Z)
    (filename : string) (plain_text : pystr) (replaceTabsBySpaces : bool) :
  encode plain_text = None →
  ∃ files',
    saveFileFromEditor encode files plain_text filename
    = (Some EncodeError, files', [])
    ∧ files' !! filename = Some []
    ∧ (∀ other, other ≠ filename → files' !! other = files !! other)
    ∧ openFileInEditor decode files' TAB_SIZE filename replaceTabsBySpaces
      = openFileInEditor decode {[filename := []]} TAB_SIZE filename
          replaceTabsBySpaces.
Proof.
  intros Henc. unfold saveFileFromEditor, openFileInEditor. rewrite Henc.
  eexists. split; [done|]. split_and!.
  - by rewrite lookup_insert_eq.
  - intros other Hne. by rewrite lookup_insert_ne.
  - by rewrite lookup_insert_eq, lookup_singleton_eq.
Qed.
End PcefFacts.

(** ** The further properties on concrete inputs *)

(** The echo frame, cut after its first byte, on a fresh socket. *)
Lemma reads_keep_consistent_witness :
  ∃ r,
    @receive ref_runtime [take 1 echo_frame; drop 1 echo_frame] (init 0 (Some 7%nat))
    = Some r
    ∧ consistent (state_of r).
Proof.
  apply (@reads_keep_consistent ref_runtime
           [take 1 echo_frame; drop 1 echo_frame] (init 0 (Some 7%nat))).
  unfold consistent. cbn. split_and!; [lia|lia|done|done].
Defined.

(** The echo response and the failure response in one read. *)
Lemma two_frames_in_one_read_witness :
  ∃ tr,
    @readyRead ref_runtime
      (take 4 (wire echo_response) ++ drop 4 (wire echo_response)
       ++ take 4 (wire failure_response) ++ drop 4 (wire failure_response))
      (init 0 (Some 7%nat))
    = Some (@frame_outcome ref_runtime 0 (Some 7%nat) false
              (drop 4 (wire failure_response)) tr)
    ∧ signals tr
      = [Callback 7 (PyBool true) (PyStr (u "hi")); Finished;
         Callback 7 (PyBool false) (PyList [PyInt 3; PyNone]); Finished].
Proof.
  apply (@two_frames_in_one_read ref_runtime (init 0 (Some 7%nat))
           (take 4 (wire echo_response)) (drop 4 (wire echo_response))
           (take 4 (wire failure_response)) (drop 4 (wire failure_response))).
  - by vm_compute.
  - reflexivity.
  - by vm_compute.
  - reflexivity.
  - by vm_compute.
Defined.

(** One more byte arrives on the socket that holds the empty list. *)
Lemma undecodable_payload_wedges_witness :
  ∃ tr,
    @readyRead ref_runtime [x7b] wedged
    = Some (Raised TypeError (set_rx [x7b] wedged) tr)
    ∧ signals tr = [].
Proof.
  apply (@undecodable_payload_wedges ref_runtime wedged [x7b] TypeError).
  - reflexivity.
  - reflexivity.
  - reflexivity.
  - discriminate.
Defined.

(** The echo client connects and draws the id [r1]. *)
Lemma connected_sends_request_witness :
  ∃ header c' tr,
    @_on_connected ref_runtime (u "127.0.0.1") 0 (u "r1") echo_client
    = Ok () c' tr
    ∧ written tr = header ++ echo_request_payload
    ∧ @struct_unpack_I LittleEndian header
      = inr (Z.of_nat (length echo_request_payload))
    ∧ socket c' = set_is_connected true (socket echo_client)
    ∧ request_id c' = Some (u "r1")
    ∧ _worker c' = _worker echo_client ∧ _args c' = _args echo_client
    ∧ getitem echo_request (u "request_id") = inr (PyStr (u "r1"))
    ∧ getitem echo_request (u "worker") = inr (PyStr (u "workers.echo"))
    ∧ getitem echo_request (u "data") = inr (PyStr (u "hi")).
Proof.
  apply (@connected_sends_request ref_runtime echo_client (u "127.0.0.1") 0
           (u "r1") echo_request_payload).
  - reflexivity.
  - by vm_compute.
Defined.

(** Two lines, each ended by a newline: both are logged. *)
Lemma complete_lines_are_logged_witness :
  logged DEBUG (trace_of (@readyReadStandardOutput ref_runtime two_lines running_process))
  = [u "ab"; u "cd"]
  ∧ logged ERROR
      (trace_of (@readyReadStandardError ref_runtime two_lines running_process))
    = [u "ab"; u "cd"].
Proof.
  apply (@complete_lines_are_logged ref_runtime two_lines
           (u "ab" ++ [10%N] ++ u "c") 100%N running_process).
  - reflexivity.
  - reflexivity.
  - reflexivity.
  - reflexivity.
Defined.

(** [main.py] holds [x], a tab and [y]; the tab becomes four spaces. *)
Lemma opened_text_has_no_tab_witness :
  ∃ shown,
    openFileInEditor utf8_decode one_file 4 "main.py" true
    = inr [textEdit_filename "main.py"; setLexerFromFilename "main.py";
           setPlainText shown; ui_textEdit_dirty false;
           logger_info "File opened: {0}" "main.py"]
    ∧ (9%N ∉ shown)
    ∧ Z.of_nat (length shown) = 3 + (Z.max 0 4 - 1) * 1
    ∧ (9%N ∉ u "x" ++ [9%N] ++ u "y" → shown = u "x" ++ [9%N] ++ u "y").
Proof.
  apply (opened_text_has_no_tab utf8_decode one_file 4 "main.py"
           (ascii_bytes "x" ++ [x09] ++ ascii_bytes "y")
           (u "x" ++ [9%N] ++ u "y")).
  - reflexivity.
  - reflexivity.
Defined.

(** The text [hi] saved as [main.py] and opened again. *)
Lemma save_then_open_witness :
  ∃ files',
    saveFileFromEditor utf8_encode one_file (u "hi") "main.py"
    = (None, files',
       [textEdit_dirty false; editor_filename "main.py";
        logger_info "File saved: {0}" "main.py"])
    ∧ files' !! "main.py"%string = Some (ascii_bytes "hi")
    ∧ (∀ other, other ≠ "main.py"%string → files' !! other = one_file !! other)
    ∧ openFileInEditor utf8_decode files' 4 "main.py" false
      = inr [textEdit_filename "main.py"; setLexerFromFilename "main.py";
             setPlainText (u "hi"); ui_textEdit_dirty false;
             logger_info "File opened: {0}" "main.py"].
Proof.
  apply (save_then_open utf8_encode utf8_decode one_file 4 "main.py" (u "hi")
           (ascii_bytes "hi")).
  - reflexivity.
  - reflexivity.
Defined.

(** A text with a lone surrogate, which UTF-8 does not encode. *)
Lemma failed_save_empties_file_witness :
  ∃ files',
    saveFileFromEditor utf8_encode one_file [55296%N] "main.py"
    = (Some EncodeError, files', [])
    ∧ files' !! "main.py"%string = Some []
    ∧ (∀ other, other ≠ "main.py"%string → files' !! other = one_file !! other)
    ∧ openFileInEditor utf8_decode files' 4 "main.py" true
      = openFileInEditor utf8_decode {["main.py"%string := []]} 4 "main.py" true.
Proof.
  apply (failed_save_empties_file utf8_encode utf8_decode one_file 4 "main.py"
           [55296%N] true).
  reflexivity.
Defined.

(** The echo frame in three pieces. *)
Lemma whole_header_chunks_witness :
  ∃ tr tr',
    @receive ref_runtime echo_chunks (init 0 (Some 7%nat))
    = Some (@frame_outcome ref_runtime 0 (Some 7%nat) false echo_payload tr)
    ∧ @readyRead ref_runtime (take 4 echo_frame ++ echo_payload)
        (init 0 (Some 7%nat))
      = Some (@frame_outcome ref_runtime 0 (Some 7%nat) false echo_payload tr')
    ∧ signals tr = signals tr'.
Proof.
  apply (@whole_header_chunks ref_runtime (init 0 (Some 7%nat))
           (take 4 echo_frame) echo_payload (take 10 echo_frame)
           [take 5 (drop 10 echo_frame); drop 15 echo_frame]).
  - by vm_compute.
  - reflexivity.
  - by vm_compute.
  - repeat (apply Forall_cons; split; [by vm_compute|]). apply Forall_nil_2.
  - reflexivity.
  - vm_compute. lia.
Defined.

(** The echo frame cut after two bytes. *)
Lemma split_inside_header_witness :
  ∃ s' tr,
    @receive ref_runtime [take 2 echo_frame; drop 2 echo_frame]
      (init 0 (Some 7%nat)) = Some (Ok () s' tr)
    ∧ signals tr = []
    ∧ _header_complete s' = false ∧ _header_buf s' = echo_frame ∧ rx s' = [].
Proof.
  apply (@split_inside_header ref_runtime (init 0 (Some 7%nat)) echo_frame 2).
  - by vm_compute.
  - lia.
  - vm_compute. lia.
Defined.

(** The output [a], newline, [b]. *)
Lemma output_after_last_newline_dropped_witness :
  logged DEBUG (trace_of (@readyReadStandardOutput ref_runtime open_line running_process))
  = splitlines (u "a")
  ∧ stdout_pending
      (state_of (@readyReadStandardOutput ref_runtime open_line running_process))
    = [].
Proof.
  apply (@output_after_last_newline_dropped ref_runtime open_line (u "a") (u "b")
           running_process).
  - reflexivity.
  - reflexivity.
  - intros Hin%list_elem_of_In. vm_compute in Hin.
    destruct Hin as [Hin|[]]. discriminate.
Defined.

(** The first byte of a two-byte character arrives alone. *)
Lemma undecodable_output_is_discarded_witness :
  @readyReadStandardOutput ref_runtime [xc3] running_process
  = Raised UnicodeDecodeError running_process []
  ∧ @readyReadStandardOutput ref_runtime [xa9; x0a]
      (state_of (@readyReadStandardOutput ref_runtime [xc3] running_process))
    = @readyReadStandardOutput ref_runtime [xa9; x0a] running_process.
Proof.
  apply (@undecodable_output_is_discarded ref_runtime [xc3] [xa9; x0a]
           running_process).
  - reflexivity.
  - reflexivity.
Defined.
